(** * Fish-plant scraper (app.py): a shallow embedding and its properties

    The Flask application of [app.py] scrapes a stocking schedule, filters it
    by county, and resolves a map pin through a cached geocoder with two
    static fallbacks.  This file embeds the functions of [app.py] as
    executable Rocq definitions and proves the properties stated about them.

    Conventions of the embedding.
    - A Python [str] is a Rocq [string]: a sequence of 8-bit characters, read
      as the UTF-8 bytes of the text.  Case mapping ([lower], [title]) and
      whitespace ([strip]) follow Python on the ASCII range; characters above
      127 are uncased and are not whitespace.
    - The network, the clock and the HTML parser are inputs: a fetched page
      is the table that BeautifulSoup hands to the code, [today] and [now]
      are parameters, and the geocoding service is an oracle.
    - Module-level globals ([COUNTIES_CACHE], [CACHE_TIME], [GEOCODE_CACHE])
      are threaded explicitly as state.
    - Coordinates are binary64 floats, as in Python. *)

From Stdlib Require Import ZArith NArith Bool Lia.
From Stdlib Require Import Ascii String.
From Stdlib Require Import Floats.PrimFloat.
From stdpp Require Import gmap strings list sorting.

Set Warnings "-inexact-float,-register-all".
Local Open Scope Z_scope.

(** ** Python string methods *)

Module Str.

Definition code (c : ascii) : N := N_of_ascii c.

Definition is_upper (c : ascii) : bool := ((65 <=? code c) && (code c <=? 90))%N.
Definition is_lower (c : ascii) : bool := ((97 <=? code c) && (code c <=? 122))%N.

(** [str.isspace] on the ASCII range: TAB, LF, VT, FF, CR, FS, GS, RS, US
    and the space. *)
Definition is_space (c : ascii) : bool :=
  (((9 <=? code c) && (code c <=? 13)) || ((28 <=? code c) && (code c <=? 32)))%N.

Definition to_lower (c : ascii) : ascii :=
  if is_upper c then ascii_of_N (code c + 32) else c.
Definition to_upper (c : ascii) : ascii :=
  if is_lower c then ascii_of_N (code c - 32) else c.

(** [s.lower()] on text of the ASCII range: the letters A to Z are
    lower-cased, every other character, those outside the range included,
    is left as it is. *)
Fixpoint lower (s : string) : string :=
  match s with
  | EmptyString => EmptyString
  | String c r => String (to_lower c) (lower r)
  end.

(** [s.title()] on text of the ASCII range: a cased character is
    upper-cased when the previous character is not cased, lower-cased
    otherwise; the cased characters are the letters a to z and A to Z. *)
Fixpoint title_from (previous_is_cased : bool) (s : string) : string :=
  match s with
  | EmptyString => EmptyString
  | String c r =>
      if is_lower c then
        String (if previous_is_cased then c else to_upper c) (title_from true r)
      else if is_upper c then
        String (if previous_is_cased then to_lower c else c) (title_from true r)
      else String c (title_from false r)
  end.
Definition title (s : string) : string := title_from false s.

Definition is_empty (s : string) : bool :=
  match s with EmptyString => true | String _ _ => false end.

Fixpoint lstrip (s : string) : string :=
  match s with
  | EmptyString => EmptyString
  | String c r => if is_space c then lstrip r else s
  end.

Fixpoint rstrip (s : string) : string :=
  match s with
  | EmptyString => EmptyString
  | String c r =>
      let r' := rstrip r in
      if is_space c && is_empty r' then EmptyString else String c r'
  end.

(** [s.strip()] *)
Definition strip (s : string) : string := rstrip (lstrip s).

(** [sub in s] *)
Fixpoint contains (sub s : string) : bool :=
  String.prefix sub s ||
  match s with
  | EmptyString => false
  | String _ r => contains sub r
  end.

(** [s.split(sep)[0]] for a non-empty [sep]: the text before the leftmost
    occurrence of [sep], the whole of [s] when there is none. *)
Fixpoint split_head (sep s : string) : string :=
  if String.prefix sep s then EmptyString
  else match s with
       | EmptyString => EmptyString
       | String c r => String c (split_head sep r)
       end.

(** [s.replace(old, "")] for a non-empty [old]: the occurrences of [old]
    are removed from left to right, without overlap.  [skip] counts the
    characters of a matched occurrence that remain to be dropped. *)
Fixpoint remove_from (old : string) (skip : nat) (s : string) : string :=
  match s with
  | EmptyString => EmptyString
  | String c r =>
      match skip with
      | S k => remove_from old k r
      | O =>
          if String.prefix old s
          then remove_from old (Nat.pred (String.length old)) r
          else String c (remove_from old O r)
      end
  end.
Definition remove_all (old s : string) : string := remove_from old O s.

Fixpoint concat_all (l : list string) : string :=
  match l with
  | [] => EmptyString
  | s :: r => s +:+ concat_all r
  end.

End Str.

(** ** Calendar dates ([datetime.date]) *)

Record date := mkdate { year : Z; month : Z; day : Z }.

(** [d1 <= d2] and [d1 > d2] on dates compare (year, month, day)
    lexicographically. *)
Definition date_le (d1 d2 : date) : bool :=
  (year d1 <? year d2) ||
  ((year d1 =? year d2) &&
   ((month d1 <? month d2) ||
    ((month d1 =? month d2) && (day d1 <=? day d2)))).

Definition date_gt (d1 d2 : date) : bool := negb (date_le d1 d2).

Definition is_leap (y : Z) : bool :=
  (y mod 4 =? 0) && (negb (y mod 100 =? 0) || (y mod 400 =? 0)).

Definition days_in_month (y m : Z) : Z :=
  if m =? 2 then (if is_leap y then 29 else 28)
  else if (m =? 4) || (m =? 6) || (m =? 9) || (m =? 11) then 30
  else 31.

(** The range check of the [date] constructor (MINYEAR = 1, MAXYEAR = 9999). *)
Definition valid_date (y m d : Z) : bool :=
  (1 <=? y) && (y <=? 9999) && (1 <=? m) && (m <=? 12) &&
  (1 <=? d) && (d <=? days_in_month y m).

(** ** [datetime.strptime(s, "%m/%d/%Y")]

    The format is turned into the regular expression
    [(1[0-2]|0[1-9]|[1-9])/(3[0-1]|[1-2]\d|0[1-9]|[1-9]| [1-9])/(\d\d\d\d)],
    matched at the start of [s] with backtracking; text left over after the
    match and fields that are not a calendar date raise [ValueError], which
    is [None] here.  A matcher returns its matches in the order the regular
    expression tries them, each with the value read and the remaining text. *)

Module Strptime.

Definition digit (c : ascii) : option Z :=
  let n := Str.code c in
  if ((48 <=? n) && (n <=? 57))%N then Some (Z.of_N n - 48) else None.

(** One character in the class [[lo-hi]]. *)
Definition digit_in (lo hi : Z) (c : ascii) : option Z :=
  match digit c with
  | Some v => if (lo <=? v) && (v <=? hi) then Some v else None
  | None => None
  end.

Definition match1 (lo hi : Z) (s : string) : list (Z * string) :=
  match s with
  | String a r =>
      match digit_in lo hi a with Some v => [(v, r)] | None => [] end
  | EmptyString => []
  end.

Definition match2 (lo1 hi1 lo2 hi2 : Z) (s : string) : list (Z * string) :=
  match s with
  | String a (String b r) =>
      match digit_in lo1 hi1 a, digit_in lo2 hi2 b with
      | Some v, Some w => [(10 * v + w, r)]
      | _, _ => []
      end
  | _ => []
  end.

(** A space followed by [[1-9]], the last alternative of [%d]. *)
Definition match_sp (s : string) : list (Z * string) :=
  match s with
  | String a r => if Ascii.eqb a " " then match1 1 9 r else []
  | EmptyString => []
  end.

Definition match_m (s : string) : list (Z * string) :=
  match2 1 1 0 2 s ++ match2 0 0 1 9 s ++ match1 1 9 s.

Definition match_d (s : string) : list (Z * string) :=
  match2 3 3 0 1 s ++ match2 1 2 0 9 s ++ match2 0 0 1 9 s ++
  match1 1 9 s ++ match_sp s.

Definition match_Y (s : string) : list (Z * string) :=
  match s with
  | String a (String b (String c (String d r))) =>
      match digit a, digit b, digit c, digit d with
      | Some va, Some vb, Some vc, Some vd =>
          [(1000 * va + 100 * vb + 10 * vc + vd, r)]
      | _, _, _, _ => []
      end
  | _ => []
  end.

Definition match_slash (s : string) : list string :=
  match s with
  | String a r => if Ascii.eqb a "/" then [r] else []
  | EmptyString => []
  end.

(** All the ways the whole expression matches a prefix of [s], in the order
    of the backtracking search; the matcher takes the first. *)
Definition matches (s : string) : list (Z * Z * Z * string) :=
  '(m, s1) ← match_m s;
  s2 ← match_slash s1;
  '(d, s3) ← match_d s2;
  s4 ← match_slash s3;
  '(y, s5) ← match_Y s4;
  [(m, d, y, s5)].

Definition strptime (s : string) : option date :=
  match matches s with
  | (m, d, y, rest) :: _ =>
      if Str.is_empty rest
      then (if valid_date y m d then Some (mkdate y m d) else None)
      else None
  | [] => None
  end.

End Strptime.

(** ** The parsed page (BeautifulSoup) *)

(** A child of an element is a text node or a tag with its own children
    (comments and other special strings are left out of the model). *)
Inductive node : Type :=
| NavigableString (text : string)
| Tag (name : string) (contents : list node).

(** A [td] cell is given by its [contents]; a [tr] row by the cells that
    [row.find_all('td')] returns. *)
Definition cell : Type := list node.
Definition row : Type := list cell.

(** The strings below a node, in document order. *)
Fixpoint strings_of (n : node) : list string :=
  match n with
  | NavigableString s => [s]
  | Tag _ cs => (fix go (l : list node) : list string :=
                   match l with
                   | [] => []
                   | c :: r => strings_of c ++ go r
                   end) cs
  end.

Definition cell_strings (c : cell) : list string :=
  n ← c; strings_of n.

(** [td.get_text(strip=True)]: every string is stripped, the empty ones are
    left out, and the rest is joined with no separator. *)
Definition get_text_strip (c : cell) : string :=
  Str.concat_all
    (List.filter (fun s => negb (Str.is_empty s)) (Str.strip <$> cell_strings c)).

(** What fetching the page gives: an exception of [requests.get] or
    [raise_for_status] with its text, or the parsed document, of which the
    code uses the rows ([find_all('tr')]) of the first table, when there is
    one. *)
Inductive fetched : Type :=
| FetchError (msg : string)
| Soup (table : option (list row)).

(** ** The fish-plant scraper *)

Record plant := mkplant {
  water : string;
  pdate : date;
  week : string;
  species : string
}.

Record water_result := mkresult {
  recent : option plant;
  upcoming : option plant
}.

(** The loop over [water_td.contents]: text children are stripped and
    appended, the first [a] element ends the loop, other elements are
    passed over. *)
Fixpoint water_name_loop (cs : list node) (water_name : string) : string :=
  match cs with
  | [] => water_name
  | NavigableString s :: r => water_name_loop r (water_name +:+ Str.strip s)
  | Tag name _ :: r =>
      if String.eqb name "a" then water_name else water_name_loop r water_name
  end.

Definition clean_water_name (water_td : cell) : string :=
  Str.strip (water_name_loop water_td "").

(** The token that is parsed as the start date. *)
Definition start_str (week_text : string) : string :=
  if Str.contains " - " week_text
  then Str.split_head " - " week_text
  else Str.split_head "-" week_text.

(** The body of the loop over the rows: [None] is a [continue], [Some p]
    is [plants.append(p)]. *)
Definition row_plant (county_input : string) (cols : row) : option plant :=
  match cols with
  | c0 :: c1 :: c2 :: c3 :: _ =>
      let water_name := clean_water_name c1 in
      if Str.is_empty water_name then None
      else
        let county_text := get_text_strip c2 in
        if negb (Str.contains (Str.lower county_input) (Str.lower county_text))
        then None
        else
          let week_text := get_text_strip c0 in
          let species := get_text_strip c3 in
          match Strptime.strptime (Str.strip (start_str week_text)) with
          | None => None
          | Some start_date => Some (mkplant water_name start_date week_text species)
          end
  | _ => None
  end.

Definition collect_plants (county_input : string) (rows : list row) : list plant :=
  omap (row_plant county_input) rows.

(** [grouped[p['water']].append(p)] on a [defaultdict(list)]; keys stay in
    the order of their first insertion. *)
Fixpoint group_append (p : plant) (grouped : list (string * list plant))
  : list (string * list plant) :=
  match grouped with
  | [] => [(water p, [p])]
  | (w, entries) :: g =>
      if String.eqb w (water p) then (w, entries ++ [p]) :: g
      else (w, entries) :: group_append p g
  end.

Definition group_plants (plants : list plant) : list (string * list plant) :=
  fold_left (fun g p => group_append p g) plants [].

(** [entries.sort(key=lambda x: x['date'])]: the sort is stable, so the
    sorted list is the one a stable insertion sort gives. *)
Fixpoint insert_by_date (p : plant) (l : list plant) : list plant :=
  match l with
  | [] => [p]
  | q :: r =>
      if date_le (pdate p) (pdate q) then p :: q :: r
      else q :: insert_by_date p r
  end.

Fixpoint sort_by_date (l : list plant) : list plant :=
  match l with
  | [] => []
  | p :: r => insert_by_date p (sort_by_date r)
  end.

(** [next((e for e in it if c(e)), None)] *)
Fixpoint next_where {A : Type} (c : A -> bool) (it : list A) : option A :=
  match it with
  | [] => None
  | e :: r => if c e then Some e else next_where c r
  end.

Definition summarize (today : date) (entries : list plant) : water_result :=
  let entries := sort_by_date entries in
  mkresult
    (next_where (fun e => date_le (pdate e) today) (rev entries))
    (next_where (fun e => date_gt (pdate e) today) entries).

(** [dict(sorted(results.items()))]: the items are ordered by key. *)
Fixpoint insert_by_key {V : Type} (kv : string * V) (l : list (string * V))
  : list (string * V) :=
  match l with
  | [] => [kv]
  | kv' :: r =>
      if String.leb (fst kv) (fst kv') then kv :: kv' :: r
      else kv' :: insert_by_key kv r
  end.

Fixpoint sort_by_key {V : Type} (l : list (string * V)) : list (string * V) :=
  match l with
  | [] => []
  | kv :: r => insert_by_key kv (sort_by_key r)
  end.

Definition build_results (today : date) (plants : list plant)
  : list (string * water_result) :=
  sort_by_key
    ((fun '(w, entries) => (w, summarize today entries)) <$> group_plants plants).

(** [get_fish_plants_for_county(county_input)]: the pair of the results and
    the error.  The first row of the table is the header. *)
Definition get_fish_plants_for_county
    (page : fetched) (today : date) (county_input : string)
  : option (list (string * water_result)) * option string :=
  match page with
  | FetchError e => (None, Some e)
  | Soup None => (None, Some "Fish planting table not found.")
  | Soup (Some trs) =>
      (Some (build_results today (collect_plants county_input (tail trs))), None)
  end.

(** ** The county list ([get_counties_from_cdfw]) *)

(** The two globals; [CACHE_TIME] is a point in time in microseconds, the
    resolution of [datetime]. *)
Record counties_state := mkcounties {
  COUNTIES_CACHE : option (list string);
  CACHE_TIME : option Z
}.

(** Why the [try] block was left through its [except]. *)
Inductive failure : Type :=
| HttpStatus (status : Z)
| Timeout
| MalformedMarkup.

(** What the [try] block meets: a failure, or the rows [soup.find_all('tr')]
    of the parsed page. *)
Inductive counties_page : Type :=
| CountiesFailure (f : failure)
| CountiesSoup (trs : list row).

Definition FALLBACK_COUNTIES : list string := [
  "Alameda"; "Alpine"; "Amador"; "Butte"; "Calaveras"; "Colusa";
  "Contra Costa"; "Del Norte"; "El Dorado"; "Fresno"; "Glenn"; "Humboldt";
  "Imperial"; "Inyo"; "Kern"; "Kings"; "Lake"; "Lassen"; "Los Angeles";
  "Madera"; "Marin"; "Mariposa"; "Mendocino"; "Merced"; "Modoc"; "Mono";
  "Monterey"; "Napa"; "Nevada"; "Orange"; "Placer"; "Plumas"; "Riverside";
  "Sacramento"; "San Benito"; "San Bernardino"; "San Diego"; "San Francisco";
  "San Joaquin"; "San Luis Obispo"; "San Mateo"; "Santa Barbara";
  "Santa Clara"; "Santa Cruz"; "Shasta"; "Sierra"; "Siskiyou"; "Solano";
  "Sonoma"; "Stanislaus"; "Sutter"; "Tehama"; "Trinity"; "Tulare";
  "Tuolumne"; "Ventura"; "Yolo"; "Yuba"
].

(** [sorted(l)] on strings. *)
Fixpoint insert_sorted (s : string) (l : list string) : list string :=
  match l with
  | [] => [s]
  | t :: r => if String.leb s t then s :: l else t :: insert_sorted s r
  end.

Definition py_sorted (l : list string) : list string :=
  fold_right insert_sorted [] l.

(** The county of a row, when the row has three cells and the text of the
    third is not empty. *)
Definition row_county (cols : row) : option string :=
  match cols with
  | _ :: _ :: c2 :: _ =>
      let county_text := get_text_strip c2 in
      if Str.is_empty county_text then None else Some (Str.title county_text)
  | _ => None
  end.

(** [COUNTIES_CACHE and CACHE_TIME and (now - CACHE_TIME).total_seconds() < 3600]:
    an empty list is false in Python. *)
Definition cache_is_fresh (st : counties_state) (now : Z) : bool :=
  match COUNTIES_CACHE st, CACHE_TIME st with
  | Some (c :: _), Some t => now - t <? 3600 * 1000000
  | _, _ => false
  end.

(** [get_counties_from_cdfw()]: the list returned and the globals after the
    call.  [page] is consulted only when the cache is not fresh. *)
Definition get_counties_from_cdfw
    (page : counties_page) (now : Z) (st : counties_state)
  : list string * counties_state :=
  if cache_is_fresh st now then (default [] (COUNTIES_CACHE st), st)
  else
    match page with
    | CountiesSoup trs =>
        let counties : gset string := list_to_set (omap row_county (tail trs)) in
        let sorted_counties := py_sorted (elements counties) in
        (sorted_counties, mkcounties (Some sorted_counties) (Some now))
    | CountiesFailure _ => (py_sorted FALLBACK_COUNTIES, st)
    end.

(** ** The geocoder ([geocode_water]) *)

Definition coords : Type := float * float.

(** The answer of the geocoding service to one request: an exception
    (network error, timeout, bad status, body that is not a JSON array), or
    the JSON array, each element of which either carries [lat] and [lon]
    strings that [float] reads, or does not, in which case reading it
    raises. *)
Inductive geo_response : Type :=
| GeoError (msg : string)
| GeoJson (data : list (option coords)).

(** [GEOCODE_CACHE] and the log of the queries sent to the service. *)
Record geo_state := mkgeo {
  GEOCODE_CACHE : gmap string (option coords);
  queries : list string
}.

Definition cache_key (water county : string) : string :=
  Str.lower water +:+ "|" +:+ Str.lower county.

Definition geo_query (water county : string) : string :=
  water +:+ ", " +:+ county +:+ " County, California".

(** ** County seats *)

Definition COUNTY_SEATS : list (string * coords) := [
  ("Alameda", (37.7799, -122.2827)); ("Alpine", (38.5969, -119.8210));
  ("Amador", (38.3477, -120.7741)); ("Butte", (39.7285, -121.8375));
  ("Calaveras", (38.1960, -120.6805)); ("Colusa", (39.2143, -122.0094));
  ("Contra Costa", (37.9735, -122.0311)); ("Del Norte", (41.7542, -124.2006));
  ("El Dorado", (38.7296, -120.7985)); ("Fresno", (36.7378, -119.7871));
  ("Glenn", (39.5200, -122.1936)); ("Humboldt", (40.8021, -124.1637));
  ("Imperial", (32.8473, -115.5694)); ("Inyo", (36.6044, -118.0625));
  ("Kern", (35.3733, -118.9854)); ("Kings", (36.0726, -119.8154));
  ("Lake", (38.9444, -122.6264)); ("Lassen", (40.4163, -120.6620));
  ("Los Angeles", (34.0522, -118.2437)); ("Madera", (36.9613, -120.0607));
  ("Marin", (37.9358, -122.5311)); ("Mariposa", (37.4849, -119.9663));
  ("Mendocino", (39.3077, -123.7995)); ("Merced", (37.3022, -120.4830));
  ("Modoc", (41.4899, -120.7243)); ("Mono", (37.9399, -118.8800));
  ("Monterey", (36.6002, -121.8947)); ("Napa", (38.2975, -122.2869));
  ("Nevada", (39.2616, -121.0180)); ("Orange", (33.7878, -117.8531));
  ("Placer", (39.0620, -120.7229)); ("Plumas", (39.9380, -120.9033));
  ("Riverside", (33.9806, -117.3755)); ("Sacramento", (38.5816, -121.4944));
  ("San Benito", (36.8454, -121.3542)); ("San Bernardino", (34.1083, -117.2898));
  ("San Diego", (32.7157, -117.1611)); ("San Francisco", (37.7749, -122.4194));
  ("San Joaquin", (37.9349, -121.2730)); ("San Luis Obispo", (35.2828, -120.6596));
  ("San Mateo", (37.5630, -122.3255)); ("Santa Barbara", (34.4208, -119.6982));
  ("Santa Clara", (37.3541, -121.9552)); ("Santa Cruz", (36.9741, -122.0308));
  ("Shasta", (40.5865, -122.3917)); ("Sierra", (39.5920, -120.3680));
  ("Siskiyou", (41.5900, -122.6370)); ("Solano", (38.2682, -122.0390));
  ("Sonoma", (38.4404, -122.7141)); ("Stanislaus", (37.5585, -120.9977));
  ("Sutter", (39.0646, -121.6147)); ("Tehama", (40.0240, -122.2350));
  ("Trinity", (40.7359, -122.9459)); ("Tulare", (36.2072, -118.8020));
  ("Tuolumne", (37.9625, -120.2400)); ("Ventura", (34.2805, -119.2945));
  ("Yolo", (38.7585, -121.7439)); ("Yuba", (39.1371, -121.5835))
]%float.

(** [d.get(k)] on a dictionary given by its items. *)
Fixpoint dict_get {V : Type} (d : list (string * V)) (k : string) : option V :=
  match d with
  | [] => None
  | (k', v) :: r => if String.eqb k' k then Some v else dict_get r k
  end.

Definition normalize_county (county_name : string) : string :=
  Str.title (Str.strip (Str.remove_all " County" county_name)).

Definition get_county_seat_coords (county_name : string) : option coords :=
  dict_get COUNTY_SEATS (normalize_county county_name).

Section Geocoder.

(** The geocoding service: its answer to a query may depend on the queries
    it received before. *)
Variable service : list string -> string -> geo_response.

(** [geocode_water(water, county)]: the value returned and the state after
    the call.  A key in the cache is answered from the cache, also when the
    cached value is [None]; otherwise the service is queried once and its
    result, or [None] on any failure or empty answer, is cached. *)
Definition geocode_water (water county : string) (st : geo_state)
  : option coords * geo_state :=
  let key := cache_key water county in
  match GEOCODE_CACHE st !! key with
  | Some cached => (cached, st)
  | None =>
      let query := geo_query water county in
      let sent := queries st ++ [query] in
      match service (queries st) query with
      | GeoJson (Some (lat, lon) :: _) =>
          (Some (lat, lon), mkgeo (<[key := Some (lat, lon)]> (GEOCODE_CACHE st)) sent)
      | _ => (None, mkgeo (<[key := None]> (GEOCODE_CACHE st)) sent)
      end
  end.

(** A sequence of calls, each given by its (water, county) pair. *)
Definition geocode_all (calls : list (string * string)) (st : geo_state) : geo_state :=
  fold_left (fun s '(w, c) => snd (geocode_water w c s)) calls st.

End Geocoder.

(** ** [urllib.parse.unquote] *)

Module Url.

Definition hex_digit (c : ascii) : option N :=
  let n := Str.code c in
  if ((48 <=? n) && (n <=? 57))%N then Some (n - 48)%N
  else if ((65 <=? n) && (n <=? 70))%N then Some (n - 55)%N
  else if ((97 <=? n) && (n <=? 102))%N then Some (n - 87)%N
  else None.

(** Every [%XX] with two hexadecimal digits becomes the byte [XX]; a [%]
    that is not followed by two such digits stays.  (Python then decodes
    the bytes as UTF-8; ill-formed sequences, which it replaces by U+FFFD,
    are kept as they are here.) *)
Fixpoint unquote (s : string) : string :=
  match s with
  | EmptyString => EmptyString
  | String c r =>
      if Ascii.eqb c "%" then
        match r with
        | String h (String l r') =>
            match hex_digit h, hex_digit l with
            | Some a, Some b => String (ascii_of_N (16 * a + b)) (unquote r')
            | _, _ => String c (unquote r)
            end
        | _ => String c (unquote r)
        end
      else String c (unquote r)
  end.

End Url.

(** ** The map view ([map_view]) *)

(** The arguments passed to the [map.html] template. *)
Record map_page := mkmap {
  lat : float;
  lon : float;
  map_water : string;
  map_county : string;
  message : option string
}.

Definition CENTER_OF_CALIFORNIA : coords := (36.7783, -119.4179)%float.

Definition county_seat_message (water county : string) : string :=
  "Exact location for '" +:+ water +:+ "' not found — showing " +:+ county
  +:+ " County seat.".

Definition center_message : string :=
  "Location and county seat not found — showing center of California.".

Definition map_view (service : list string -> string -> geo_response)
    (county water : string) (st : geo_state) : map_page * geo_state :=
  let water := Url.unquote water in
  let '(coords1, st') := geocode_water service water county st in
  let '(coords2, message1) :=
    match coords1 with
    | None => (get_county_seat_coords county, Some (county_seat_message water county))
    | Some _ => (coords1, None)
    end in
  let '(coords3, message2) :=
    match coords2 with
    | None => (CENTER_OF_CALIFORNIA, Some center_message)
    | Some c => (c, message1)
    end in
  (mkmap (fst coords3) (snd coords3) water county message2, st').

(** ** The checks of the scraper's loop, one by one *)

(** The text of the county cell of a row that has one. *)
Definition county_text (cols : row) : option string :=
  match cols with
  | _ :: _ :: c2 :: _ => Some (get_text_strip c2)
  | _ => None
  end.

(** The query, compared case-insensitively, is a substring of the county
    text of the row. *)
Definition county_matches (county_input : string) (cols : row) : bool :=
  match county_text cols with
  | Some t => Str.contains (Str.lower county_input) (Str.lower t)
  | None => false
  end.

(** The checks that do not look at the query: four cells, a water name
    that is not empty, a start date that parses. *)
Definition row_is_event (cols : row) : bool :=
  match cols with
  | c0 :: c1 :: _ :: _ :: _ =>
      negb (Str.is_empty (clean_water_name c1)) &&
      match Strptime.strptime (Str.strip (start_str (get_text_strip c0))) with
      | Some _ => true
      | None => false
      end
  | _ => false
  end.

(** ** The events of a water body *)

(** The surviving events of water body [w], in the order of the page. *)
Definition plants_of (w : string) (plants : list plant) : list plant :=
  List.filter (fun p => String.eqb (water p) w) plants.

(** [p] is dated no later than [q]. *)
Definition not_later (p q : plant) : Prop := date_le (pdate p) (pdate q) = true.

(** The surviving events of a fetched page for a query: the list [plants]
    at the end of the loop over the rows. *)
Definition page_plants (page : fetched) (county_input : string) : list plant :=
  match page with
  | Soup (Some trs) => collect_plants county_input (tail trs)
  | _ => []
  end.

(** [o] is the event with the latest date among the [events] dated on or
    before [today]: present, and with the maximum such date, when there is
    such an event; absent when there is none. *)
Definition latest_on_or_before
    (today : date) (events : plant -> Prop) (o : option plant) : Prop :=
  ((exists e, events e /\ date_le (pdate e) today = true) ->
   exists e, o = Some e /\ events e /\ date_le (pdate e) today = true
             /\ forall e', events e' -> date_le (pdate e') today = true ->
                           date_le (pdate e') (pdate e) = true)
  /\ ((forall e, events e -> date_le (pdate e) today = false) -> o = None).

(** [o] is the event with the earliest date among the [events] dated after
    [today], in the same sense. *)
Definition earliest_after
    (today : date) (events : plant -> Prop) (o : option plant) : Prop :=
  ((exists e, events e /\ date_gt (pdate e) today = true) ->
   exists e, o = Some e /\ events e /\ date_gt (pdate e) today = true
             /\ forall e', events e' -> date_gt (pdate e') today = true ->
                           date_le (pdate e) (pdate e') = true)
  /\ ((forall e, events e -> date_gt (pdate e) today = false) -> o = None).

(** ** Reading a numeral, to state what a parsed field is *)

(** The value of a text made of decimal digits only. *)
Fixpoint digits_value (acc : Z) (s : string) : option Z :=
  match s with
  | EmptyString => Some acc
  | String c r =>
      match Strptime.digit c with
      | Some v => digits_value (10 * acc + v) r
      | None => None
      end
  end.

(** [int(s)] for an unsigned decimal numeral, which white space may precede. *)
Definition int_of (s : string) : option Z :=
  match Str.lstrip s with
  | EmptyString => None
  | t => digits_value 0 t
  end.

(** The decimal digit [k] as a character, numbers written with two and
    with four digits, and a date written as mm/dd/yyyy with leading zeros. *)
Definition digit_char (k : Z) : ascii := ascii_of_N (Z.to_N (48 + k)).

Definition two_digits (n : Z) : string :=
  String (digit_char (n / 10)) (String (digit_char (n mod 10)) "").

Definition four_digits (n : Z) : string :=
  String (digit_char (n / 1000))
    (String (digit_char (n / 100 mod 10))
       (String (digit_char (n / 10 mod 10)) (String (digit_char (n mod 10)) ""))).

Definition mdY_text (d : date) : string :=
  two_digits (month d) +:+ "/" +:+ two_digits (day d) +:+ "/" +:+ four_digits (year d).

(** A field matcher that returns [(v, r)] on [s] has read [v] when [s] is a
    numeral of value [v] followed by [r]. *)
Definition reads (s : string) (v : Z) (r : string) : Prop :=
  exists t, s = t +:+ r /\ int_of t = Some v.

(** ** The county-seat normalization as the specification words it *)

(** [s] without [suffix] when [s] ends with it, [s] otherwise. *)
Fixpoint remove_suffix (suffix s : string) : string :=
  if String.eqb s suffix then EmptyString
  else match s with
       | EmptyString => EmptyString
       | String c r => String c (remove_suffix suffix r)
       end.

(** "Stripping a trailing literal " County" substring, trimming, and
    title-casing": only an occurrence at the end of the input is removed. *)
Definition normalize_county_spec (county_name : string) : string :=
  Str.title (Str.strip (remove_suffix " County" county_name)).

(** ** The request of [get_counties_from_cdfw] *)






(** ** The rows that the two scrapes read *)

(** [get_counties_from_cdfw] reads [soup.find_all('tr')], every row of the
    document; [get_fish_plants_for_county] reads the rows of
    [soup.find('table')], the first table, when there is one. *)
Record soup := mksoup {
  document_rows : list row;
  first_table_rows : option (list row)
}.

(** ** Notions used to state further properties *)

(** Equality of dates, field by field. *)
Definition date_eqb (d1 d2 : date) : bool :=
  (year d1 =? year d2) && (month d1 =? month d2) && (day d1 =? day d2).

(** The events of a list that are dated [d], in the order of the list. *)
Definition dated (d : date) (l : list plant) : list plant :=
  List.filter (fun p => date_eqb (pdate p) d) l.

(** A hexadecimal digit as an upper-case character, and percent-encoding:
    the characters that [keep] selects are left as they are, every other
    character [c] is written [%XX] with the two hexadecimal digits of its
    code ([urllib.parse.quote] keeps the unreserved characters). *)
Definition hex_char (n : N) : ascii :=
  if (n <? 10)%N then ascii_of_N (48 + n) else ascii_of_N (55 + n).

Fixpoint percent_encode (keep : ascii -> bool) (s : string) : string :=
  match s with
  | EmptyString => EmptyString
  | String c r =>
      if keep c then String c (percent_encode keep r)
      else String "%" (String (hex_char (Str.code c / 16))
                         (String (hex_char (Str.code c mod 16))
                            (percent_encode keep r)))
  end.

(** Letters and digits, a set of characters that an encoder may keep. *)
Definition is_alnum (c : ascii) : bool :=
  Str.is_lower c || Str.is_upper c
  || ((48 <=? Str.code c) && (Str.code c <=? 57))%N.

(** A letter, and what [title] makes of a character that follows a letter
    ([after_cased]) or does not. *)
Definition is_cased (c : ascii) : bool := Str.is_lower c || Str.is_upper c.

Definition title_char (after_cased : bool) (c : ascii) : ascii :=
  if after_cased then Str.to_lower c else Str.to_upper c.

(** The spellings of a month and of a day of the month: two digits, or for
    a number below ten the digit alone, which for a day a space may
    precede. *)
Definition month_texts (m : Z) : list string :=
  two_digits m :: (if m <? 10 then [String (digit_char m) ""] else []).

Definition day_texts (d : Z) : list string :=
  two_digits d ::
  (if d <? 10
   then [String (digit_char d) ""; String " " (String (digit_char d) "")]
   else []).

(** Text of the ASCII range, on which the string methods above are those
    of Python. *)
Fixpoint is_ascii (s : string) : bool :=
  match s with
  | EmptyString => true
  | String c r => (Str.code c <? 128)%N && is_ascii r
  end.

(** What a call keeps of the service's answer: the first element of the
    JSON array when it reads as coordinates, [None] for an exception, an
    empty array or an element that does not read. *)
Definition first_place (r : geo_response) : option coords :=
  match r with
  | GeoJson (Some c :: _) => Some c
  | _ => None
  end.

(** A row all of whose strings are of the ASCII range. *)
Definition row_is_ascii (cols : row) : bool :=
  forallb (fun c => forallb is_ascii (cell_strings c)) cols.

(** The keys that a sequence of geocoder calls asks for. *)
Definition call_keys (calls : list (string * string)) : list string :=
  (fun '(w, c) => cache_key w c) <$> calls.

(** ** Sample inputs *)

(** A service that is down, and the state of a fresh process. *)
Definition failing_service : list string -> string -> geo_response :=
  fun _ _ => GeoError "connection refused".

Definition empty_geo : geo_state := mkgeo ∅ [].

(** A county cache that was filled at time 0. *)
Definition stale_counties : counties_state := mkcounties (Some ["Inyo"; "Mono"]) (Some 0).

(** A row whose four cells hold plain text, and the header row. *)
Definition text_row (a b c d : string) : row :=
  [[NavigableString a]; [NavigableString b]; [NavigableString c]; [NavigableString d]].

Definition header_row : row := [].

(** A row whose date is not a date. *)
Definition undated_row : row := text_row "TBD" "Shaver Lake" "Fresno" "Rainbow Trout".

Definition sample_table : list row :=
  [ header_row;
    text_row "06/01/2025 - 06/07/2025" "Shaver Lake" "Fresno County" "Rainbow Trout";
    text_row "06/08/2025-06/14/2025" "Kings River" "North Fresno" "Brown Trout";
    text_row "06/15/2025" "Bass Lake" "Madera" "Rainbow Trout" ].

Definition sample_today : date := mkdate 2025 6 10.

(** The row of the scenario as it is written, the water name inside the
    link, and the row with the name in front of the link. *)
Definition tahoe_link_row : row :=
  [ [NavigableString "06/01/2025 - 06/07/2025"];
    [Tag "a" [NavigableString "Lake Tahoe"]];
    [NavigableString "El Dorado"];
    [NavigableString "Rainbow Trout"] ].

Definition tahoe_row : row :=
  [ [NavigableString "06/01/2025 - 06/07/2025"];
    [NavigableString "Lake Tahoe "; Tag "a" [NavigableString "Map"]];
    [NavigableString "El Dorado"];
    [NavigableString "Rainbow Trout"] ].

Definition tahoe_plant : plant :=
  mkplant "Lake Tahoe" (mkdate 2025 6 1) "06/01/2025 - 06/07/2025" "Rainbow Trout".

(** Three plants of one lake, not in the order of their dates. *)
Definition shaver_table : list row :=
  [ header_row;
    text_row "06/22/2025 - 06/28/2025" "Shaver Lake" "Fresno" "Rainbow Trout";
    text_row "05/25/2025 - 05/31/2025" "Shaver Lake" "Fresno" "Brown Trout";
    text_row "06/01/2025 - 06/07/2025" "Shaver Lake" "Fresno" "Rainbow Trout" ].

Definition shaver_recent : plant :=
  mkplant "Shaver Lake" (mkdate 2025 6 1) "06/01/2025 - 06/07/2025" "Rainbow Trout".

Definition kings_plant : plant :=
  mkplant "Kings River" (mkdate 2025 6 8) "06/08/2025-06/14/2025" "Brown Trout".

Definition shaver_upcoming : plant :=
  mkplant "Shaver Lake" (mkdate 2025 6 22) "06/22/2025 - 06/28/2025" "Rainbow Trout".

(** The county cache after the sample page was read at time 0. *)
Definition sample_counties : counties_state :=
  mkcounties (Some ["Fresno County"; "Madera"; "North Fresno"]) (Some 0).

(** Four plants of one lake on two dates, two for each date. *)
Definition tie_table : list row :=
  [ header_row;
    text_row "06/01/2025" "Shaver Lake" "Fresno" "Rainbow Trout";
    text_row "06/01/2025" "Shaver Lake" "Fresno" "Brown Trout";
    text_row "06/22/2025" "Shaver Lake" "Fresno" "Brook Trout";
    text_row "06/22/2025" "Shaver Lake" "Fresno" "Golden Trout" ].

Definition tie_result : water_result :=
  mkresult (Some (mkplant "Shaver Lake" (mkdate 2025 6 1) "06/01/2025" "Brown Trout"))
           (Some (mkplant "Shaver Lake" (mkdate 2025 6 22) "06/22/2025" "Brook Trout")).

(** A service that knows two places, one for the query of ("a|b", "c") and
    one for every other query, and a service that fails on the first of the
    two queries only. *)
Definition two_place_service : list string -> string -> geo_response :=
  fun _ query =>
    if String.eqb query "a|b, c County, California"
    then GeoJson [Some (1.5, 2.5)%float]
    else GeoJson [Some (3.5, 4.5)%float].

Definition second_only_service : list string -> string -> geo_response :=
  fun _ query =>
    if String.eqb query "a|b, c County, California"
    then GeoError "timed out"
    else GeoJson [Some (3.5, 4.5)%float].

(** A document with one table, and one with a second table that holds a
    county the first has not. *)
Definition sample_soup : soup := mksoup sample_table (Some sample_table).

Definition two_table_soup : soup :=
  mksoup (sample_table ++ [text_row "06/15/2025" "Topaz Lake" "Mono" "Rainbow Trout"])
         (Some sample_table).

(** * Properties *)

Example lower_ex : Str.lower "El Dorado" = "el dorado".
Proof. reflexivity. Qed.
Example title_ex : Str.title "san luis OBISPO" = "San Luis Obispo".
Proof. reflexivity. Qed.
Example strip_ex : Str.strip "  Lake Tahoe " = "Lake Tahoe".
Proof. reflexivity. Qed.
Example remove_ex : Str.remove_all " County" "El County Dorado County" = "El Dorado".
Proof. reflexivity. Qed.
Example split_ex : Str.split_head " - " "06/01/2025 - 06/07/2025" = "06/01/2025".
Proof. reflexivity. Qed.
Example unquote_ex : Url.unquote "Lake%20Tahoe%2" = "Lake Tahoe%2".
Proof. reflexivity. Qed.
Example strptime_ex : Strptime.strptime "06/01/2025" = Some (mkdate 2025 6 1).
Proof. reflexivity. Qed.
Example strptime_ex2 : Strptime.strptime "6/ 1/2025" = Some (mkdate 2025 6 1).
Proof. reflexivity. Qed.
Example strptime_ex3 : Strptime.strptime "02/29/2025" = None.
Proof. reflexivity. Qed.
Example strptime_ex4 : Strptime.strptime "06/01/20255" = None.
Proof. reflexivity. Qed.
Example seat_ex : get_county_seat_coords "el dorado County" = Some (38.7296, -120.7985)%float.
Proof. reflexivity. Qed.
Example fallback_sorted : py_sorted FALLBACK_COUNTIES = FALLBACK_COUNTIES.
Proof. reflexivity. Qed.

(** ** The geocoder cache *)

Section GeocoderFacts.

Variable service : list string -> string -> geo_response.

Implicit Types (st : geo_state) (water county key : string).

(** A key that is in the cache is answered from it and nothing changes. *)
Lemma geocode_water_hit water county st cached :
  GEOCODE_CACHE st !! cache_key water county = Some cached ->
  geocode_water service water county st = (cached, st).
Proof. intros Hc. unfold geocode_water. now rewrite Hc. Qed.

(** After a call its key is in the cache, with the value that was returned. *)
Lemma geocode_water_cached water county st :
  GEOCODE_CACHE (geocode_water service water county st).2
    !! cache_key water county
  = Some (geocode_water service water county st).1.
Proof.
  unfold geocode_water.
  destruct (GEOCODE_CACHE st !! cache_key water county) as [v|] eqn:Hc; [exact Hc|].
  destruct (service _ _) as [msg|[|[[la lo]|] data]]; simpl;
    apply lookup_insert_eq.
Qed.

(** A call never changes the value of a key that is already in the cache. *)
Lemma geocode_water_keeps water county st key cached :
  GEOCODE_CACHE st !! key = Some cached ->
  GEOCODE_CACHE (geocode_water service water county st).2 !! key = Some cached.
Proof.
  intros Hk. unfold geocode_water.
  destruct (GEOCODE_CACHE st !! cache_key water county) as [v|] eqn:Hc; [exact Hk|].
  assert (cache_key water county ≠ key) as Hne by congruence.
  destruct (service _ _) as [msg|[|[[la lo]|] data]]; simpl;
    now rewrite lookup_insert_ne.
Qed.

Lemma geocode_all_keeps calls st key cached :
  GEOCODE_CACHE st !! key = Some cached ->
  GEOCODE_CACHE (geocode_all service calls st) !! key = Some cached.
Proof.
  revert st. induction calls as [|[w c] calls IH]; intros st Hk; [exact Hk|].
  apply IH. now apply geocode_water_keeps.
Qed.

(** A call that finds its key sends nothing; a call that misses sends
    exactly its own query. *)
Lemma geocode_water_queries water county st :
  queries (geocode_water service water county st).2 =
  match GEOCODE_CACHE st !! cache_key water county with
  | Some _ => queries st
  | None => queries st ++ [geo_query water county]
  end.
Proof.
  unfold geocode_water.
  destruct (GEOCODE_CACHE st !! cache_key water county) as [v|]; [reflexivity|].
  now destruct (service _ _) as [msg|[|[[la lo]|] data]].
Qed.

(** A call that misses queries the service with its own text and caches
    what it keeps of the answer under its key. *)
Lemma geocode_water_miss water county st :
  GEOCODE_CACHE st !! cache_key water county = None ->
  geocode_water service water county st
  = (first_place (service (queries st) (geo_query water county)),
     mkgeo (<[cache_key water county :=
               first_place (service (queries st) (geo_query water county))]>
              (GEOCODE_CACHE st))
           (queries st ++ [geo_query water county])).
Proof.
  intros Hc. unfold geocode_water. rewrite Hc.
  now destruct (service _ _) as [msg|[|[[la lo]|] data]].
Qed.

End GeocoderFacts.

Lemma cache_key_lower water county water' county' :
  Str.lower water' = Str.lower water ->
  Str.lower county' = Str.lower county ->
  cache_key water' county' = cache_key water county.
Proof. unfold cache_key. now intros -> ->. Qed.

(** C5. Once the geocoder has been called with a (water, county) pair, every
    later call with the same pair up to letter case, whatever calls were made
    in between and whatever the service would answer, returns the value of
    the first call and leaves the state as it is: no query is sent and the
    cache entry, also a negative one, is not written again. *)
Theorem geocode_water_idempotent
    (service : list string -> string -> geo_response)
    (water county water' county' : string)
    (calls : list (string * string)) (st : geo_state) :
  Str.lower water' = Str.lower water ->
  Str.lower county' = Str.lower county ->
  let first := geocode_water service water county st in
  let later := geocode_all service calls first.2 in
  geocode_water service water' county' later = (first.1, later)
  /\ queries (geocode_water service water' county' later).2 = queries later
  /\ GEOCODE_CACHE later !! cache_key water county = Some first.1.
Proof.
  intros Hw Hc first later.
  assert (GEOCODE_CACHE later !! cache_key water county = Some first.1) as Hk.
  { apply geocode_all_keeps, geocode_water_cached. }
  assert (geocode_water service water' county' later = (first.1, later)) as Hhit.
  { apply geocode_water_hit. now rewrite (cache_key_lower _ _ _ _ Hw Hc). }
  repeat split; [exact Hhit | now rewrite Hhit | exact Hk].
Qed.

(** The negative case on a concrete run: the first call fails and caches
    [None]; the same pair in another case after an unrelated call is
    answered from the cache. *)
Lemma geocode_water_idempotent_witness :
  let first := geocode_water failing_service "Lake Tahoe" "El Dorado" empty_geo in
  let later := geocode_all failing_service [("Pine Creek", "Inyo")] first.2 in
  first.1 = None
  /\ (geocode_water failing_service "LAKE TAHOE" "el dorado" later = (first.1, later)
      /\ queries (geocode_water failing_service "LAKE TAHOE" "el dorado" later).2
         = queries later
      /\ GEOCODE_CACHE later !! cache_key "Lake Tahoe" "El Dorado" = Some first.1).
Proof.
  split; [reflexivity|].
  apply (geocode_water_idempotent failing_service "Lake Tahoe" "El Dorado"
           "LAKE TAHOE" "el dorado" [("Pine Creek", "Inyo")] empty_geo);
    reflexivity.
Defined.

(** C10. The cache key does not determine the pair: ("a|b", "c") and
    ("a", "b|c") are different pairs with the same key "a|b|c".  After a
    call with the first pair, for every service and every state, the cache
    holds under that key what the first call returned, and a call with the
    second pair returns that value, leaves the state as it is and sends no
    query.  When the key was not cached before, that value is what the
    service answered to the query of the first pair (its first place, or
    the absent marker), the only query sent by the two calls is that of the
    first pair, and the second pair alone would have been answered from its
    own query.  The collision changes the answer: with a service that knows
    a different place for each of the two queries the second pair gets the
    place of the first, not its own, and with a service that fails on the
    first query only it gets the absent marker instead of its place. *)
Theorem cache_key_not_injective :
  ("a|b", "c") ≠ ("a", "b|c")
  /\ cache_key "a|b" "c" = "a|b|c"
  /\ cache_key "a" "b|c" = "a|b|c"
  /\ (forall (service : list string -> string -> geo_response) (st : geo_state),
       let first := geocode_water service "a|b" "c" st in
       GEOCODE_CACHE first.2 !! "a|b|c" = Some first.1
       /\ geocode_water service "a" "b|c" first.2 = (first.1, first.2)
       /\ queries (geocode_water service "a" "b|c" first.2).2 = queries first.2)
  /\ (forall (service : list string -> string -> geo_response) (st : geo_state),
       GEOCODE_CACHE st !! "a|b|c" = None ->
       let first := geocode_water service "a|b" "c" st in
       let second := geocode_water service "a" "b|c" first.2 in
       let answer := first_place (service (queries st) "a|b, c County, California") in
       first.1 = answer
       /\ second.1 = answer
       /\ GEOCODE_CACHE second.2 !! "a|b|c" = Some answer
       /\ queries second.2 = queries st ++ ["a|b, c County, California"]
       /\ (geocode_water service "a" "b|c" st).1
          = first_place (service (queries st) "a, b|c County, California"))
  /\ (let first := geocode_water two_place_service "a|b" "c" empty_geo in
      first.1 = Some (1.5, 2.5)%float
      /\ (geocode_water two_place_service "a" "b|c" empty_geo).1
         = Some (3.5, 4.5)%float
      /\ (geocode_water two_place_service "a" "b|c" first.2).1
         = Some (1.5, 2.5)%float
      /\ (geocode_water two_place_service "a" "b|c" first.2).1
         ≠ (geocode_water two_place_service "a" "b|c" empty_geo).1)
  /\ (let first := geocode_water second_only_service "a|b" "c" empty_geo in
      first.1 = None
      /\ (geocode_water second_only_service "a" "b|c" empty_geo).1
         = Some (3.5, 4.5)%float
      /\ (geocode_water second_only_service "a" "b|c" first.2).1 = None
      /\ queries (geocode_water second_only_service "a" "b|c" first.2).2
         = ["a|b, c County, California"]).
Proof.
  split; [discriminate|]. split; [reflexivity|]. split; [reflexivity|].
  assert (forall service st,
            geocode_water service "a" "b|c" (geocode_water service "a|b" "c" st).2
            = ((geocode_water service "a|b" "c" st).1,
               (geocode_water service "a|b" "c" st).2)) as Hhit.
  { intros service st. apply geocode_water_hit.
    change (cache_key "a" "b|c") with (cache_key "a|b" "c").
    apply geocode_water_cached. }
  split; [|split; [|split]].
  - intros service st first. subst first.
    split; [exact (geocode_water_cached service "a|b" "c" st)|].
    split; [apply Hhit | now rewrite Hhit].
  - intros service st Hmiss first second answer. subst first second answer.
    rewrite Hhit.
    rewrite (geocode_water_miss service "a|b" "c" st Hmiss).
    rewrite (geocode_water_miss service "a" "b|c" st Hmiss).
    cbn [fst snd GEOCODE_CACHE queries].
    repeat split. apply lookup_insert_eq.
  - cbv zeta. repeat split; try reflexivity.
    intros Heq.
    assert ((geocode_water two_place_service "a" "b|c"
               (geocode_water two_place_service "a|b" "c" empty_geo).2).1
            = Some (1.5, 2.5)%float) as H1 by reflexivity.
    assert ((geocode_water two_place_service "a" "b|c" empty_geo).1
            = Some (3.5, 4.5)%float) as H2 by reflexivity.
    rewrite H1, H2 in Heq.
    assert (PrimFloat.eqb 1.5 1.5 = PrimFloat.eqb 3.5 1.5) as Hf by congruence.
    vm_compute in Hf. discriminate Hf.
  - cbv zeta. repeat split; reflexivity.
Qed.

(** ** The county list *)

Lemma FALLBACK_COUNTIES_sorted : py_sorted FALLBACK_COUNTIES = FALLBACK_COUNTIES.
Proof. reflexivity. Qed.

(** The fallback names are the counties of the county-seat table. *)
Lemma FALLBACK_COUNTIES_seats : FALLBACK_COUNTIES = COUNTY_SEATS.*1.
Proof. reflexivity. Qed.

(** A failure never touches the globals, fresh cache or not. *)
Lemma get_counties_failure_state (f : failure) (now : Z) (st : counties_state) :
  (get_counties_from_cdfw (CountiesFailure f) now st).2 = st.
Proof. unfold get_counties_from_cdfw. now destruct (cache_is_fresh st now). Qed.

(** A page that is fetched and parsed is not a failure, whatever it holds:
    with no county row the call returns the empty list and stores it. *)
Example get_counties_no_rows :
  get_counties_from_cdfw (CountiesSoup [header_row]) 7200000000 stale_counties
  = ([], mkcounties (Some []) (Some 7200000000)).
Proof. reflexivity. Qed.

Example get_counties_success :
  get_counties_from_cdfw (CountiesSoup sample_table) 7200000000 stale_counties
  = (["Fresno County"; "Madera"; "North Fresno"],
     mkcounties (Some ["Fresno County"; "Madera"; "North Fresno"]) (Some 7200000000)).
Proof. reflexivity. Qed.

Example get_counties_fresh :
  get_counties_from_cdfw (CountiesFailure Timeout) 3599999999 stale_counties
  = (["Inyo"; "Mono"], stale_counties).
Proof. reflexivity. Qed.









(** ** The map view *)

(** C8. The pin of the map view follows the chain: the geocoder's result for
    the decoded water name and the county, with no message; failing that,
    the county seat of the county with the substitution message; failing
    that, (36.7783, -119.4179) with the total-fallback message.  In
    particular, whenever geocoding Lake Tahoe in El Dorado gives nothing,
    the pin is (38.7296, -120.7985) with the substitution message, as on a
    fresh process whose service is down. *)
Theorem map_view_chain :
  (forall (service : list string -> string -> geo_response)
          (county water : string) (st : geo_state),
     let w := Url.unquote water in
     let g := geocode_water service w county st in
     let '(page, st') := map_view service county water st in
     st' = g.2 /\ map_water page = w /\ map_county page = county /\
     match g.1 with
     | Some c => (lat page, lon page) = c /\ message page = None
     | None =>
         match get_county_seat_coords county with
         | Some c =>
             (lat page, lon page) = c
             /\ message page = Some (county_seat_message w county)
         | None =>
             (lat page, lon page) = (36.7783, -119.4179)%float
             /\ message page = Some center_message
         end
     end)
  /\ (forall (service : list string -> string -> geo_response) (st : geo_state),
        match (geocode_water service "Lake Tahoe" "El Dorado" st).1 with
        | Some _ => True
        | None =>
            let page := (map_view service "El Dorado" "Lake Tahoe" st).1 in
            (lat page, lon page) = (38.7296, -120.7985)%float
            /\ message page
               = Some "Exact location for 'Lake Tahoe' not found — showing El Dorado County seat."
        end)
  /\ (map_view failing_service "El Dorado" "Lake Tahoe" empty_geo).1
     = mkmap 38.7296 (-120.7985) "Lake Tahoe" "El Dorado"
         (Some "Exact location for 'Lake Tahoe' not found — showing El Dorado County seat.").
Proof.
  split; [|split].
  - intros service county water st w g. unfold map_view. fold w. fold g.
    destruct g as [[c|] st'] eqn:Hg; simpl.
    + destruct c; repeat split.
    + destruct (get_county_seat_coords county) as [[la lo]|]; repeat split.
  - intros service st. unfold map_view.
    change (Url.unquote "Lake Tahoe") with "Lake Tahoe".
    destruct (geocode_water service "Lake Tahoe" "El Dorado" st) as [[c|] st'];
      [exact I|]. simpl. split; reflexivity.
  - reflexivity.
Qed.

(** ** Facts about the string methods *)

#[local] Arguments String.append !_ _ / : simpl nomatch.

Lemma prefix_app (p s : string) : String.prefix p (p +:+ s) = true.
Proof.
  induction p as [|a p IH]; simpl; [now destruct s|].
  now destruct (ascii_dec a a).
Qed.

Lemma prefix_inv (p s : string) :
  String.prefix p s = true -> exists r, s = p +:+ r.
Proof.
  revert s. induction p as [|a p IH]; intros s H; [now exists s|].
  destruct s as [|b s]; simpl in H; [discriminate|].
  destruct (ascii_dec a b) as [->|]; [|discriminate].
  destruct (IH s H) as [r ->]. now exists r.
Qed.

#[local] Arguments String.prefix : simpl never.

Lemma append_assoc (a b c : string) : (a +:+ b) +:+ c = a +:+ (b +:+ c).
Proof. induction a as [|x a IH]; simpl; [reflexivity | now f_equal]. Qed.

Lemma append_empty_r (a : string) : a +:+ "" = a.
Proof. induction a as [|x a IH]; simpl; [reflexivity | now f_equal]. Qed.

Lemma length_append (a b : string) :
  String.length (a +:+ b) = (String.length a + String.length b)%nat.
Proof. induction a as [|x a IH]; simpl; [reflexivity | now f_equal]. Qed.

Lemma contains_unfold (sub s : string) :
  Str.contains sub s =
  String.prefix sub s ||
  match s with EmptyString => false | String _ r => Str.contains sub r end.
Proof. now destruct s. Qed.

Lemma split_head_unfold (sep s : string) :
  Str.split_head sep s =
  if String.prefix sep s then EmptyString
  else match s with
       | EmptyString => EmptyString
       | String c r => String c (Str.split_head sep r)
       end.
Proof. now destruct s. Qed.

(** [sub in s] holds exactly when [s] is some text, [sub], some text. *)
Lemma contains_iff (sub s : string) :
  Str.contains sub s = true <-> exists a b, s = a +:+ sub +:+ b.
Proof.
  split.
  - induction s as [|c s IH]; simpl; rewrite orb_true_iff; intros [H|H].
    + destruct (prefix_inv _ _ H) as [r ->]. now exists "", r.
    + discriminate.
    + destruct (prefix_inv _ _ H) as [r Hr]. exists "", r. exact Hr.
    + destruct (IH H) as (a & b & ->). now exists (String c a), b.
  - intros (a & b & ->). induction a as [|c a IH]; simpl.
    + now rewrite contains_unfold, prefix_app.
    + rewrite IH. apply orb_true_r.
Qed.

(** [s.split(sep)[0]] followed by [sep] starts [s] when [sep] occurs... *)
Lemma split_head_found (sep s : string) :
  Str.contains sep s = true ->
  exists rest, s = Str.split_head sep s +:+ sep +:+ rest.
Proof.
  induction s as [|c s IH]; simpl; intros H.
  - rewrite orb_false_r in H. rewrite H. simpl. now apply prefix_inv.
  - destruct (String.prefix sep (String c s)) eqn:Hp; simpl in *.
    + now apply prefix_inv.
    + destruct (IH H) as [rest Hr]. exists rest. now rewrite <- Hr.
Qed.

(** ... and it is the whole of [s] when [sep] does not occur. *)
Lemma split_head_absent (sep s : string) :
  Str.contains sep s = false -> Str.split_head sep s = s.
Proof.
  induction s as [|c s IH]; simpl; intros H; apply orb_false_elim in H as [Hp H].
  - now rewrite Hp.
  - rewrite Hp. now rewrite IH.
Qed.

(** The occurrence that [split_head] stops at is the leftmost one. *)
Lemma split_head_leftmost (sep a b : string) :
  (String.length (Str.split_head sep (a +:+ sep +:+ b)) <= String.length a)%nat.
Proof.
  induction a as [|c a IH]; simpl.
  - rewrite split_head_unfold, prefix_app. simpl. lia.
  - destruct (String.prefix sep _); simpl; lia.
Qed.

(** [replace]: the skipped characters of a match are dropped, ... *)
Lemma remove_from_skip (old p s : string) :
  Str.remove_from old (String.length p) (p +:+ s) = Str.remove_from old O s.
Proof.
  induction p as [|c p IH]; simpl; [reflexivity | exact IH].
Qed.

(** ... so an occurrence at the front is removed, ... *)
Lemma remove_all_occurrence (old s : string) :
  old <> "" -> Str.remove_all old (old +:+ s) = Str.remove_all old s.
Proof.
  intros Hne. destruct old as [|c old]; [congruence|].
  unfold Str.remove_all.
  change (Str.remove_from (String c old) 0 (String c old +:+ s))
    with (if String.prefix (String c old) (String c old +:+ s)
          then Str.remove_from (String c old)
                 (Nat.pred (String.length (String c old))) (old +:+ s)
          else String c (Str.remove_from (String c old) 0 (old +:+ s))).
  rewrite prefix_app. simpl Nat.pred. apply remove_from_skip.
Qed.

(** ... a character that starts no occurrence is kept, ... *)
Lemma remove_all_other (old : string) (c : ascii) (s : string) :
  String.prefix old (String c s) = false ->
  Str.remove_all old (String c s) = String c (Str.remove_all old s).
Proof.
  intros Hp. unfold Str.remove_all.
  change (Str.remove_from old 0 (String c s))
    with (if String.prefix old (String c s)
          then Str.remove_from old (Nat.pred (String.length old)) s
          else String c (Str.remove_from old 0 s)).
  now rewrite Hp.
Qed.

(** ... the leftmost occurrence is removed wherever it is, and the removal
    goes on behind it, ... *)
Lemma remove_all_leftmost (old a b : string) :
  old <> "" ->
  Str.split_head old (a +:+ old +:+ b) = a ->
  Str.remove_all old (a +:+ old +:+ b) = a +:+ Str.remove_all old b.
Proof.
  intros Hne. induction a as [|c a IH]; intros Hs.
  - simpl. now apply remove_all_occurrence.
  - simpl in Hs |- *.
    destruct (String.prefix old (String c (a +:+ old +:+ b))) eqn:Hp;
      [discriminate|].
    rewrite remove_all_other by exact Hp.
    f_equal. apply IH. congruence.
Qed.

(** ... and a text without occurrence is unchanged. *)
Lemma remove_all_absent (old s : string) :
  Str.contains old s = false -> Str.remove_all old s = s.
Proof.
  induction s as [|c s IH]; [reflexivity|]. simpl.
  intros H. apply orb_false_elim in H as [Hp H].
  rewrite remove_all_other by exact Hp. now rewrite IH.
Qed.

(** ** County seats *)

Lemma dict_get_None {V : Type} (d : list (string * V)) (k : string) :
  dict_get d k = None <-> k ∉ d.*1.
Proof.
  induction d as [|[k' v] d IH]; simpl.
  - split; [intros _; apply not_elem_of_nil | reflexivity].
  - rewrite not_elem_of_cons. destruct (String.eqb_spec k' k) as [->|Hne].
    + split; [discriminate | intros [[] _]; reflexivity].
    + rewrite IH. split; [intros H; split; [congruence | exact H] | intros [_ H]; exact H].
Qed.

Lemma dict_get_Some {V : Type} (d : list (string * V)) (k : string) (v : V) :
  NoDup d.*1 -> dict_get d k = Some v <-> (k, v) ∈ d.
Proof.
  induction d as [|[k' v'] d IH]; simpl; intros Hnd.
  - split; [discriminate | intros H; inversion H].
  - apply NoDup_cons in Hnd as [Hk' Hnd]. rewrite elem_of_cons.
    destruct (String.eqb_spec k' k) as [->|Hne].
    + split; [intros [= ->]; now left|].
      intros [[= ->]|Hin]; [reflexivity|].
      exfalso. apply Hk'. apply list_elem_of_fmap. now exists (k, v).
    + rewrite (IH Hnd). split; [now right | intros [[= -> ->]|H]; [congruence | exact H]].
Qed.

Lemma COUNTY_SEATS_keys_NoDup : NoDup COUNTY_SEATS.*1.
Proof. apply (bool_decide_unpack _). vm_compute. exact I. Qed.

(** Every county of the table is found under its name and under its name
    followed by " County". *)
Lemma COUNTY_SEATS_resolve (k : string) (v : coords) :
  (k, v) ∈ COUNTY_SEATS ->
  get_county_seat_coords k = Some v
  /\ get_county_seat_coords (k +:+ " County") = Some v.
Proof.
  revert k v.
  assert (Forall (fun kv => get_county_seat_coords kv.1 = Some kv.2
                            /\ get_county_seat_coords (kv.1 +:+ " County") = Some kv.2)
            COUNTY_SEATS) as H
    by (repeat (constructor; [split; reflexivity|]); constructor).
  intros k v Hin. rewrite Forall_forall in H. exact (H (k, v) Hin).
Qed.

(** C4, as stated, fails: in "El County Dorado" the text " County" is not at
    the end, so the normalization of the specification keeps it and the name
    is not a key of the table; the code removes it and finds El Dorado. *)
Lemma get_county_seat_not_only_trailing :
  normalize_county_spec "El County Dorado" = "El County Dorado"
  /\ ("El County Dorado" ∉ COUNTY_SEATS.*1)
  /\ get_county_seat_coords "El County Dorado" = Some (38.7296, -120.7985)%float
  /\ ~ (get_county_seat_coords "El County Dorado" = None
        <-> (normalize_county_spec "El County Dorado" ∉ COUNTY_SEATS.*1)).
Proof.
  assert ("El County Dorado" ∉ COUNTY_SEATS.*1) as Hnot.
  { apply dict_get_None. reflexivity. }
  split; [reflexivity|]. split; [exact Hnot|]. split; [reflexivity|].
  intros [_ H]. specialize (H Hnot). discriminate H.
Qed.

(** The same happens when white space follows the final " County". *)
Example get_county_seat_trailing_space :
  normalize_county_spec "Fresno County " = "Fresno County"
  /\ get_county_seat_coords "Fresno County " = Some (36.7378, -119.7871)%float.
Proof. split; reflexivity. Qed.

(** C4, amended. [get_county_seat_coords] removes every occurrence of
    " County" (from left to right, wherever it stands), trims, title-cases
    and looks the name up in the table of 58 counties; it returns nothing
    exactly when that name is not a key of the table, and every county of
    the table is found under its name with or without a final " County". *)
Theorem get_county_seat_coords_lookup :
  length COUNTY_SEATS = 58%nat
  /\ NoDup COUNTY_SEATS.*1
  /\ (forall s : string,
        (get_county_seat_coords s = None
         <-> Str.title (Str.strip (Str.remove_all " County" s)) ∉ COUNTY_SEATS.*1)
        /\ (forall v : coords,
              get_county_seat_coords s = Some v
              <-> (Str.title (Str.strip (Str.remove_all " County" s)), v) ∈ COUNTY_SEATS))
  /\ (forall a b : string,
        Str.split_head " County" (a +:+ " County" +:+ b) = a ->
        Str.remove_all " County" (a +:+ " County" +:+ b)
        = a +:+ Str.remove_all " County" b)
  /\ (forall s : string,
        Str.contains " County" s = false -> Str.remove_all " County" s = s)
  /\ (forall (k : string) (v : coords),
        (k, v) ∈ COUNTY_SEATS ->
        get_county_seat_coords k = Some v
        /\ get_county_seat_coords (k +:+ " County") = Some v).
Proof.
  split; [reflexivity|]. split; [exact COUNTY_SEATS_keys_NoDup|].
  split; [|split; [|split; [|exact COUNTY_SEATS_resolve]]].
  - intros s. split; [apply dict_get_None|].
    intros v. apply dict_get_Some, COUNTY_SEATS_keys_NoDup.
  - intros a b. now apply remove_all_leftmost.
  - apply remove_all_absent.
Qed.

(** ** The county filter *)

(** The loop body yields an event exactly when the row passes the checks
    that do not depend on the query and the county matches. *)
Lemma row_plant_is_Some (county_input : string) (cols : row) :
  is_Some (row_plant county_input cols)
  <-> row_is_event cols = true /\ county_matches county_input cols = true.
Proof.
  unfold row_plant, row_is_event, county_matches, county_text.
  assert (forall P : Prop, is_Some (@None plant) <-> false = true /\ P) as Hl.
  { intros P. split; [intros [? ?] | intros [? _]]; discriminate. }
  assert (forall b : bool, is_Some (@None plant) <-> b = true /\ false = true) as Hr.
  { intros b. split; [intros [? ?] | intros [_ ?]]; discriminate. }
  destruct cols as [|c0 [|c1 [|c2 [|c3 rest]]]]; try apply Hl.
  destruct (Str.is_empty (clean_water_name c1)); simpl; [apply Hl|].
  destruct (Str.contains _ _); simpl; [|apply Hr].
  destruct (Strptime.strptime _); simpl; [|apply Hl].
  split; [auto | eauto].
Qed.

Lemma row_plant_None_no_match (county_input : string) (cols : row) :
  county_matches county_input cols = false -> row_plant county_input cols = None.
Proof.
  intros Hm. destruct (row_plant county_input cols) eqn:E; [|reflexivity].
  assert (is_Some (row_plant county_input cols)) as Hs by (rewrite E; eauto).
  apply row_plant_is_Some in Hs as [_ Hs]. congruence.
Qed.

Lemma collect_plants_no_match (county_input : string) (rows : list row) :
  (forall cols, cols ∈ rows -> county_matches county_input cols = false) ->
  collect_plants county_input rows = [].
Proof.
  unfold collect_plants. induction rows as [|cols rows IH]; intros H; [reflexivity|].
  simpl. rewrite row_plant_None_no_match by (apply H; left).
  apply IH. intros c Hc. apply H. now right.
Qed.

(** C9, as stated, fails in one direction: a row whose county matches is
    still left out when another check of the loop rejects it, here a week
    text that is not a date. *)
Lemma county_match_not_sufficient :
  county_matches "fresno" undated_row = true
  /\ row_plant "fresno" undated_row = None
  /\ get_fish_plants_for_county (Soup (Some [header_row; undated_row]))
       sample_today "fresno" = (Some [], None)
  /\ ~ (is_Some (row_plant "fresno" undated_row)
        <-> county_matches "fresno" undated_row = true).
Proof.
  split; [reflexivity|]. split; [reflexivity|]. split; [reflexivity|].
  intros [_ H]. destruct (H eq_refl) as [p Hp]. discriminate Hp.
Qed.

(** C9, amended. A row with four cells, a water name and a start date that
    parses is included exactly when the query, compared case-insensitively,
    is a substring of the text of its county cell, and no other row is
    included; so "fresno" matches "Fresno County" and "North Fresno", and a
    query that matches no row gives an empty mapping and no error. *)
Theorem county_filter_substring :
  (forall (county_input : string) (cols : row),
     is_Some (row_plant county_input cols)
     <-> row_is_event cols = true /\ county_matches county_input cols = true)
  /\ (forall (county_input : string) (rows : list row) (p : plant),
        p ∈ collect_plants county_input rows
        <-> exists cols, cols ∈ rows /\ row_plant county_input cols = Some p)
  /\ (forall (county_input : string) (c0 c1 c2 c3 : cell) (rest : list cell),
        county_matches county_input (c0 :: c1 :: c2 :: c3 :: rest)
        = Str.contains (Str.lower county_input) (Str.lower (get_text_strip c2)))
  /\ (forall (county_input : string) (c0 c1 c2 c3 : cell) (rest : list cell),
        county_matches county_input (c0 :: c1 :: c2 :: c3 :: rest) = true
        <-> exists a b,
              Str.lower (get_text_strip c2) = a +:+ Str.lower county_input +:+ b)
  /\ (forall (q q' : string) (cols : row),
        Str.lower q = Str.lower q' -> county_matches q cols = county_matches q' cols)
  /\ Str.contains (Str.lower "fresno") (Str.lower "Fresno County") = true
  /\ Str.contains (Str.lower "fresno") (Str.lower "North Fresno") = true
  /\ (water <$> collect_plants "fresno" (tail sample_table))
     = ["Shaver Lake"; "Kings River"]
  /\ (forall (trs : list row) (today : date) (county_input : string),
        (forall cols, cols ∈ tail trs -> county_matches county_input cols = false) ->
        get_fish_plants_for_county (Soup (Some trs)) today county_input
        = (Some [], None))
  /\ get_fish_plants_for_county (Soup (Some sample_table)) sample_today "Nonexistent"
     = (Some [], None).
Proof.
  split; [exact row_plant_is_Some|].
  split; [intros; unfold collect_plants; apply list_elem_of_omap|].
  split; [reflexivity|].
  split; [intros; apply contains_iff|].
  split; [intros q q' cols Hq; unfold county_matches; now rewrite Hq|].
  split; [reflexivity|]. split; [reflexivity|].
  split; [reflexivity|]. split; [|reflexivity].
  intros trs today county_input H. simpl.
  now rewrite collect_plants_no_match.
Qed.

(** ** The start date *)

Section StrptimeFacts.

Import Strptime.

Lemma digit_in_inv lo hi c v :
  digit_in lo hi c = Some v -> digit c = Some v /\ lo <= v <= hi.
Proof.
  unfold digit_in. destruct (digit c) as [w|]; [|discriminate].
  destruct (andb _ _) eqn:E; [|discriminate]. intros [= ->].
  apply andb_true_iff in E as [H1 H2]. split; [reflexivity | lia].
Qed.

Lemma digit_not_space c v : digit c = Some v -> Str.is_space c = false.
Proof.
  unfold digit, Str.is_space. destruct (andb _ _) eqn:E; [|discriminate].
  intros _. apply andb_true_iff in E as [H1 H2].
  apply N.leb_le in H1, H2.
  apply orb_false_iff. split; apply andb_false_iff.
  - right. apply N.leb_gt. lia.
  - right. apply N.leb_gt. lia.
Qed.

Lemma int_of_digit a v : digit a = Some v -> int_of (String a "") = Some v.
Proof.
  intros H. unfold int_of. simpl. rewrite (digit_not_space _ _ H). simpl.
  rewrite H. f_equal; lia.
Qed.

Lemma int_of_digits2 a b v w :
  digit a = Some v -> digit b = Some w ->
  int_of (String a (String b "")) = Some (10 * v + w).
Proof.
  intros Ha Hb. unfold int_of. simpl. rewrite (digit_not_space _ _ Ha). simpl.
  rewrite Ha, Hb. f_equal; lia.
Qed.

Lemma int_of_space_digit a v :
  digit a = Some v -> int_of (String " " (String a "")) = Some v.
Proof.
  intros H. unfold int_of. simpl. rewrite (digit_not_space _ _ H). simpl.
  rewrite H. f_equal; lia.
Qed.

Lemma match1_reads lo hi s v r : (v, r) ∈ match1 lo hi s -> reads s v r.
Proof.
  unfold match1. destruct s as [|a s]; [intros H; inversion H|].
  destruct (digit_in lo hi a) as [w|] eqn:E; [|intros H; inversion H].
  intros H. apply list_elem_of_singleton in H as [= -> ->].
  apply digit_in_inv in E as [E _].
  exists (String a ""). split; [reflexivity | now apply int_of_digit].
Qed.

Lemma match2_reads lo1 hi1 lo2 hi2 s v r :
  (v, r) ∈ match2 lo1 hi1 lo2 hi2 s -> reads s v r.
Proof.
  unfold match2. destruct s as [|a [|b s]]; try (intros H; inversion H; fail).
  destruct (digit_in lo1 hi1 a) as [va|] eqn:Ea; [|intros H; inversion H].
  destruct (digit_in lo2 hi2 b) as [vb|] eqn:Eb; [|intros H; inversion H].
  intros H. apply list_elem_of_singleton in H as [= -> ->].
  apply digit_in_inv in Ea as [Ea _]. apply digit_in_inv in Eb as [Eb _].
  exists (String a (String b "")). split; [reflexivity | now apply int_of_digits2].
Qed.

Lemma match_sp_reads s v r : (v, r) ∈ match_sp s -> reads s v r.
Proof.
  unfold match_sp. destruct s as [|a s]; [intros H; inversion H|].
  destruct (Ascii.eqb_spec a " ") as [->|]; [|intros H; inversion H].
  unfold match1. destruct s as [|b s]; [intros H; inversion H|].
  destruct (digit_in 1 9 b) as [w|] eqn:E; [|intros H; inversion H].
  intros H. apply list_elem_of_singleton in H as [= -> ->].
  apply digit_in_inv in E as [E _].
  exists (String " " (String b "")). split; [reflexivity | now apply int_of_space_digit].
Qed.

Lemma match_m_reads s v r : (v, r) ∈ match_m s -> reads s v r.
Proof.
  unfold match_m. rewrite !elem_of_app.
  intros [H|[H|H]]; eauto using match1_reads, match2_reads.
Qed.

Lemma match_d_reads s v r : (v, r) ∈ match_d s -> reads s v r.
Proof.
  unfold match_d. rewrite !elem_of_app.
  intros [H|[H|[H|[H|H]]]]; eauto using match1_reads, match2_reads, match_sp_reads.
Qed.

Lemma match_Y_reads s v r :
  (v, r) ∈ match_Y s ->
  exists t, s = t +:+ r /\ int_of t = Some v /\ String.length t = 4%nat.
Proof.
  unfold match_Y.
  destruct s as [|a [|b [|c [|d s]]]]; try (intros H; inversion H; fail).
  destruct (digit a) as [va|] eqn:Ea; [|intros H; inversion H].
  destruct (digit b) as [vb|] eqn:Eb; [|intros H; inversion H].
  destruct (digit c) as [vc|] eqn:Ec; [|intros H; inversion H].
  destruct (digit d) as [vd|] eqn:Ed; [|intros H; inversion H].
  intros H. apply list_elem_of_singleton in H as [= -> ->].
  exists (String a (String b (String c (String d "")))).
  split; [reflexivity|]. split; [|reflexivity].
  unfold int_of. simpl. rewrite (digit_not_space _ _ Ea). simpl.
  rewrite Ea, Eb, Ec, Ed. f_equal; lia.
Qed.

Lemma match_slash_inv s r : r ∈ match_slash s -> s = String "/" r.
Proof.
  unfold match_slash. destruct s as [|a s]; [intros H; inversion H|].
  destruct (Ascii.eqb_spec a "/") as [->|]; [|intros H; inversion H].
  intros H. now apply list_elem_of_singleton in H as ->.
Qed.

(** Every match of the expression splits the text into the three fields
    and the two slashes. *)
Lemma matches_fields s m d y rest :
  (m, d, y, rest) ∈ matches s ->
  exists mt dt yt,
    s = mt +:+ "/" +:+ dt +:+ "/" +:+ yt +:+ rest
    /\ int_of mt = Some m /\ int_of dt = Some d /\ int_of yt = Some y
    /\ String.length yt = 4%nat.
Proof.
  unfold matches. intros H.
  apply list_elem_of_bind in H as ([m' s1] & H & Hm).
  apply list_elem_of_bind in H as (s2 & H & H1).
  apply list_elem_of_bind in H as ([d' s3] & H & Hd).
  apply list_elem_of_bind in H as (s4 & H & H2).
  apply list_elem_of_bind in H as ([y' s5] & H & Hy).
  apply list_elem_of_singleton in H as [= -> -> -> ->].
  apply match_m_reads in Hm as (mt & -> & Hmt).
  apply match_slash_inv in H1 as ->.
  apply match_d_reads in Hd as (dt & -> & Hdt).
  apply match_slash_inv in H2 as ->.
  apply match_Y_reads in Hy as (yt & -> & Hyt & Hlen).
  now exists mt, dt, yt.
Qed.

(** A parsed date is a calendar date whose fields are the three numerals
    of the text, which has nothing else in it but the two slashes. *)
Lemma strptime_fields s dt :
  strptime s = Some dt ->
  exists mt dt' yt,
    s = mt +:+ "/" +:+ dt' +:+ "/" +:+ yt
    /\ int_of mt = Some (month dt) /\ int_of dt' = Some (day dt)
    /\ int_of yt = Some (year dt) /\ String.length yt = 4%nat
    /\ valid_date (year dt) (month dt) (day dt) = true.
Proof.
  unfold strptime. destruct (matches s) as [|[[[m d] y] rest] l] eqn:E; [discriminate|].
  destruct rest; simpl; [|discriminate].
  destruct (valid_date y m d) eqn:Hv; [|discriminate]. intros [= <-].
  assert ((m, d, y, "") ∈ matches s) as H by (rewrite E; left).
  apply matches_fields in H as (mt & dt' & yt & -> & Hm & Hd & Hy & Hl).
  exists mt, dt', yt. simpl. rewrite append_empty_r. repeat split; assumption.
Qed.

(** Conversely, every calendar date written mm/dd/yyyy is parsed, and as
    itself.  The month and the day are settled case by case. *)
Lemma digit_digit_char k : 0 <= k <= 9 -> digit (digit_char k) = Some k.
Proof.
  intros H.
  assert (k = 0 \/ k = 1 \/ k = 2 \/ k = 3 \/ k = 4 \/ k = 5 \/ k = 6 \/ k = 7
          \/ k = 8 \/ k = 9) as Hk by lia.
  repeat (destruct Hk as [->|Hk]; [reflexivity|]). now subst.
Qed.

Ltac bind_case k v r :=
  transitivity ((k v r ++ []) ++ []);
  [vm_compute; reflexivity | now rewrite !app_nil_r].

Lemma bind_match_m {B : Type} (m : Z) (r : string) (k : Z -> string -> list B) :
  1 <= m <= 12 ->
  (match_m (two_digits m +:+ String "/" r)
     ≫= fun '(m', s1) => match_slash s1 ≫= k m')
  = k m r.
Proof.
  intros H.
  assert (m = 1 \/ m = 2 \/ m = 3 \/ m = 4 \/ m = 5 \/ m = 6 \/ m = 7 \/ m = 8
          \/ m = 9 \/ m = 10 \/ m = 11 \/ m = 12) as Hm by lia.
  repeat (destruct Hm as [->|Hm];
          [match goal with |- _ = k ?v r => bind_case k v r end|]).
  subst. bind_case k 12 r.
Qed.

Lemma bind_match_d {B : Type} (d : Z) (r : string) (k : Z -> string -> list B) :
  1 <= d <= 31 ->
  (match_d (two_digits d +:+ String "/" r)
     ≫= fun '(d', s1) => match_slash s1 ≫= k d')
  = k d r.
Proof.
  intros H.
  assert (exists n, d = Z.of_nat n /\ (n < 32)%nat) as (n & -> & Hn)
    by (exists (Z.to_nat d); lia).
  do 32 (destruct n as [|n];
         [try lia; match goal with |- _ = k ?v r => bind_case k v r end|]).
  lia.
Qed.

Lemma match_Y_four (y : Z) :
  0 <= y <= 9999 -> match_Y (four_digits y) = [(y, "")].
Proof.
  intros H. unfold match_Y, four_digits.
  rewrite !digit_digit_char by (Z.div_mod_to_equations; lia).
  do 2 f_equal. Z.div_mod_to_equations; lia.
Qed.

Lemma strptime_mdY_text (d : date) :
  valid_date (year d) (month d) (day d) = true -> strptime (mdY_text d) = Some d.
Proof.
  intros Hv. pose proof Hv as Hv'. unfold valid_date in Hv'.
  rewrite !andb_true_iff, !Z.leb_le in Hv'. destruct Hv' as [[[[[? ?] ?] ?] ?] Hd].
  assert (day d <= 31)
    by (unfold days_in_month in Hd; repeat destruct (_ : bool) in Hd; lia).
  unfold strptime, matches.
  change (mdY_text d)
    with (two_digits (month d) +:+ String "/"
            (two_digits (day d) +:+ String "/" (four_digits (year d)))).
  rewrite bind_match_m by lia. rewrite bind_match_d by lia.
  rewrite match_Y_four by lia. simpl.
  rewrite Hv. now destruct d.
Qed.

End StrptimeFacts.

(** ** Dates are totally ordered *)

Lemma date_le_spec (a b : date) :
  date_le a b = true <->
  year a < year b \/
  (year a = year b /\ (month a < month b \/ (month a = month b /\ day a <= day b))).
Proof.
  unfold date_le.
  rewrite !orb_true_iff, !andb_true_iff, !orb_true_iff, !andb_true_iff.
  now rewrite !Z.ltb_lt, !Z.eqb_eq, Z.leb_le.
Qed.

Lemma date_le_total (a b : date) : date_le a b = true \/ date_le b a = true.
Proof. rewrite !date_le_spec. lia. Qed.

Lemma date_le_trans (a b c : date) :
  date_le a b = true -> date_le b c = true -> date_le a c = true.
Proof. rewrite !date_le_spec. lia. Qed.

Lemma date_gt_le (a b : date) : date_gt a b = true -> date_le b a = true.
Proof.
  unfold date_gt. rewrite negb_true_iff. intros H.
  now destruct (date_le_total a b) as [H'|H']; [congruence|].
Qed.

(** Every date is on or before today, or after today, never both. *)
Lemma date_le_or_gt (a today : date) :
  date_le a today = true /\ date_gt a today = false
  \/ date_le a today = false /\ date_gt a today = true.
Proof. unfold date_gt. destruct (date_le a today); auto. Qed.

(** ** Sorting the events of a water body *)

Lemma insert_by_date_perm (p : plant) (l : list plant) :
  insert_by_date p l ≡ₚ p :: l.
Proof.
  induction l as [|q l IH]; simpl; [reflexivity|].
  destruct (date_le (pdate p) (pdate q)); [reflexivity|].
  rewrite IH. apply Permutation_swap.
Qed.

Lemma sort_by_date_perm (l : list plant) : sort_by_date l ≡ₚ l.
Proof.
  induction l as [|p l IH]; simpl; [reflexivity|].
  now rewrite insert_by_date_perm, IH.
Qed.

Lemma insert_by_date_sorted (p : plant) (l : list plant) :
  StronglySorted not_later l -> StronglySorted not_later (insert_by_date p l).
Proof.
  induction 1 as [|q l Hs IH Hq]; simpl; [repeat constructor|].
  destruct (date_le (pdate p) (pdate q)) eqn:E.
  - constructor; [now constructor|].
    constructor; [exact E|].
    eapply Forall_impl; [exact Hq|]. intros x Hx.
    unfold not_later in *. eapply date_le_trans; eassumption.
  - constructor; [exact IH|].
    rewrite insert_by_date_perm. constructor; [|exact Hq].
    unfold not_later. destruct (date_le_total (pdate p) (pdate q)); congruence.
Qed.

Lemma sort_by_date_sorted (l : list plant) :
  StronglySorted not_later (sort_by_date l).
Proof.
  induction l as [|p l IH]; simpl; [constructor|].
  now apply insert_by_date_sorted.
Qed.

(** ** The first element that meets a condition *)

Lemma next_where_Some {A : Type} (c : A -> bool) (it : list A) (e : A) :
  next_where c it = Some e ->
  c e = true /\
  exists before after,
    it = before ++ e :: after /\ Forall (fun x => c x = false) before.
Proof.
  induction it as [|x it IH]; simpl; [discriminate|].
  destruct (c x) eqn:E.
  - intros [= ->]. split; [exact E|]. now exists [], it.
  - intros H. destruct (IH H) as (He & before & after & -> & Hb).
    split; [exact He|]. exists (x :: before), after.
    split; [reflexivity | now constructor].
Qed.

Lemma next_where_None {A : Type} (c : A -> bool) (it : list A) :
  next_where c it = None <-> Forall (fun x => c x = false) it.
Proof.
  induction it as [|x it IH]; simpl; [split; [constructor | reflexivity]|].
  rewrite Forall_cons. destruct (c x) eqn:E.
  - split; [discriminate | intros [[=] _]].
  - rewrite IH. tauto.
Qed.

(** In a list sorted by date, the first event after today seen from the
    front is the earliest one after today. *)
Lemma next_after_is_earliest (today : date) (l : list plant) (e : plant) :
  StronglySorted not_later l ->
  next_where (fun x => date_gt (pdate x) today) l = Some e ->
  e ∈ l /\ date_gt (pdate e) today = true /\
  forall e', e' ∈ l -> date_gt (pdate e') today = true -> not_later e e'.
Proof.
  intros Hs H. apply next_where_Some in H as (He & before & after & -> & Hb).
  split; [apply elem_of_app; right; left|]. split; [exact He|].
  intros e' Hin He'. apply elem_of_app in Hin as [Hin|Hin].
  - rewrite Forall_forall in Hb. specialize (Hb _ Hin). simpl in Hb. congruence.
  - apply StronglySorted_app_1_r in Hs. apply StronglySorted_inv in Hs as [_ Hall].
    apply elem_of_cons in Hin as [->|Hin].
    + unfold not_later. destruct (date_le_total (pdate e) (pdate e)); assumption.
    + rewrite Forall_forall in Hall. now apply Hall.
Qed.

(** Seen from the back, the first event on or before today is the latest
    one on or before today. *)
Lemma next_before_is_latest (today : date) (l : list plant) (e : plant) :
  StronglySorted not_later l ->
  next_where (fun x => date_le (pdate x) today) (rev l) = Some e ->
  e ∈ l /\ date_le (pdate e) today = true /\
  forall e', e' ∈ l -> date_le (pdate e') today = true -> not_later e' e.
Proof.
  intros Hs H. apply next_where_Some in H as (He & before & after & Hrev & Hb).
  assert (l = rev after ++ e :: rev before) as ->.
  { rewrite <- (rev_involutive l), Hrev, rev_app_distr. simpl.
    now rewrite <- app_assoc. }
  split; [apply elem_of_app; right; left|]. split; [exact He|].
  intros e' Hin He'. apply elem_of_app in Hin as [Hin|Hin].
  - eapply StronglySorted_app_1_elem_of; [exact Hs | exact Hin | left].
  - apply elem_of_cons in Hin as [->|Hin].
    + unfold not_later. destruct (date_le_total (pdate e) (pdate e)); assumption.
    + rewrite Forall_forall in Hb.
      assert (e' ∈ before) as Hin'
        by (apply list_elem_of_In, in_rev, list_elem_of_In; exact Hin).
      specialize (Hb _ Hin'). simpl in Hb. congruence.
Qed.

(** ** Grouping by water body *)

Lemma plants_of_elem (w : string) (plants : list plant) (e : plant) :
  e ∈ plants_of w plants <-> e ∈ plants /\ water e = w.
Proof.
  unfold plants_of. rewrite !list_elem_of_In, filter_In.
  now rewrite String.eqb_eq.
Qed.

Lemma plants_of_snoc (w : string) (l : list plant) (p : plant) :
  plants_of w (l ++ [p]) =
  plants_of w l ++ (if String.eqb (water p) w then [p] else []).
Proof. unfold plants_of. rewrite List.filter_app. simpl. now destruct (String.eqb _ _). Qed.

Lemma dict_get_group_append (p : plant) (g : list (string * list plant)) (w : string) :
  dict_get (group_append p g) w =
  if String.eqb (water p) w then Some (default [] (dict_get g w) ++ [p])
  else dict_get g w.
Proof.
  induction g as [|[k es] g IH]; simpl.
  - now destruct (String.eqb (water p) w).
  - destruct (String.eqb_spec k (water p)) as [->|Hk]; simpl.
    + now destruct (String.eqb (water p) w).
    + rewrite IH. destruct (String.eqb_spec k w) as [->|Hw]; [|reflexivity].
      destruct (String.eqb_spec (water p) w); [congruence | reflexivity].
Qed.

Lemma group_append_keys (p : plant) (g : list (string * list plant)) (k : string) :
  k ∈ (group_append p g).*1 <-> k = water p \/ k ∈ g.*1.
Proof.
  induction g as [|[k' es] g IH]; simpl.
  - rewrite list_elem_of_singleton. split; [auto | intros [H|H]; [exact H | inversion H]].
  - destruct (String.eqb_spec k' (water p)) as [->|Hk]; simpl.
    + rewrite elem_of_cons. tauto.
    + rewrite !elem_of_cons, IH. tauto.
Qed.

Lemma group_append_NoDup (p : plant) (g : list (string * list plant)) :
  NoDup g.*1 -> NoDup (group_append p g).*1.
Proof.
  induction g as [|[k es] g IH]; simpl; intros Hnd.
  - apply NoDup_singleton.
  - apply NoDup_cons in Hnd as [Hk Hnd].
    destruct (String.eqb_spec k (water p)) as [->|Hne]; simpl.
    + now apply NoDup_cons.
    + apply NoDup_cons. split; [|now apply IH].
      rewrite group_append_keys. intros [H|H]; [congruence | contradiction].
Qed.

(** The dictionary built by the grouping loop holds, for every water body,
    its events in the order of the page, and no key for a water body that
    has none. *)
Lemma group_plants_from (l done : list plant) (g : list (string * list plant)) :
  NoDup g.*1 ->
  (forall w, dict_get g w =
             match plants_of w done with [] => None | es => Some es end) ->
  NoDup (fold_left (fun g p => group_append p g) l g).*1
  /\ forall w, dict_get (fold_left (fun g p => group_append p g) l g) w =
               match plants_of w (done ++ l) with [] => None | es => Some es end.
Proof.
  revert done g. induction l as [|p l IH]; intros done g Hnd Hg; simpl.
  - now rewrite app_nil_r.
  - replace (done ++ p :: l) with ((done ++ [p]) ++ l) by now rewrite <- app_assoc.
    apply IH; [now apply group_append_NoDup|].
    intros w. rewrite dict_get_group_append, plants_of_snoc, Hg.
    destruct (String.eqb (water p) w); [|now rewrite app_nil_r].
    now destruct (plants_of w done).
Qed.

Lemma group_plants_spec (plants : list plant) :
  NoDup (group_plants plants).*1
  /\ forall w es, (w, es) ∈ group_plants plants
                  <-> es = plants_of w plants /\ es <> [].
Proof.
  destruct (group_plants_from plants [] []) as [Hnd Hg];
    [constructor | reflexivity |].
  split; [exact Hnd|]. intros w es.
  rewrite <- (dict_get_Some _ _ _ Hnd). unfold group_plants. rewrite Hg. simpl.
  destruct (plants_of w plants) as [|e l].
  - split; [discriminate | intros [-> H]; congruence].
  - split; [intros [= <-]; split; [reflexivity | discriminate] | intros [-> _]; reflexivity].
Qed.

(** ** Ordering the results by key *)

Lemma insert_by_key_perm {V : Type} (kv : string * V) (l : list (string * V)) :
  insert_by_key kv l ≡ₚ kv :: l.
Proof.
  induction l as [|kv' l IH]; simpl; [reflexivity|].
  destruct (String.leb (fst kv) (fst kv')); [reflexivity|].
  rewrite IH. apply Permutation_swap.
Qed.

Lemma sort_by_key_perm {V : Type} (l : list (string * V)) : sort_by_key l ≡ₚ l.
Proof.
  induction l as [|kv l IH]; simpl; [reflexivity|].
  now rewrite insert_by_key_perm, IH.
Qed.

(** The returned mapping has one key for every water body with a surviving
    event, and the value of the key summarizes the events of that water body. *)
Lemma build_results_elem (today : date) (plants : list plant)
    (w : string) (r : water_result) :
  (w, r) ∈ build_results today plants
  <-> plants_of w plants <> [] /\ r = summarize today (plants_of w plants).
Proof.
  unfold build_results. rewrite sort_by_key_perm, list_elem_of_fmap.
  destruct (group_plants_spec plants) as [_ Hg]. split.
  - intros ([w' es] & [= -> ->] & Hin). apply Hg in Hin as [-> Hne]. auto.
  - intros [Hne ->]. exists (w, plants_of w plants).
    split; [reflexivity | now apply Hg].
Qed.

Lemma build_results_keys_NoDup (today : date) (plants : list plant) :
  NoDup (build_results today plants).*1.
Proof.
  unfold build_results. rewrite sort_by_key_perm, <- list_fmap_compose.
  destruct (group_plants_spec plants) as [Hnd _].
  erewrite list_fmap_ext; [exact Hnd|]. now intros _ [w es] _.
Qed.

(** ** Recent and upcoming *)

Lemma summarize_recent (today : date) (es : list plant) :
  match recent (summarize today es) with
  | Some e =>
      e ∈ es /\ date_le (pdate e) today = true /\
      forall e', e' ∈ es -> date_le (pdate e') today = true -> not_later e' e
  | None => forall e', e' ∈ es -> date_le (pdate e') today = false
  end.
Proof.
  unfold summarize. simpl.
  destruct (next_where _ (rev (sort_by_date es))) as [e|] eqn:E.
  - apply next_before_is_latest in E as (Hin & He & Hmax);
      [|apply sort_by_date_sorted].
    rewrite sort_by_date_perm in Hin. split; [exact Hin|]. split; [exact He|].
    intros e' Hin'. apply Hmax. now rewrite sort_by_date_perm.
  - apply next_where_None in E. rewrite Forall_forall in E.
    intros e' Hin'. apply (E e').
    apply list_elem_of_In, in_rev, list_elem_of_In.
    rewrite rev_involutive. now rewrite sort_by_date_perm.
Qed.

Lemma summarize_upcoming (today : date) (es : list plant) :
  match upcoming (summarize today es) with
  | Some e =>
      e ∈ es /\ date_gt (pdate e) today = true /\
      forall e', e' ∈ es -> date_gt (pdate e') today = true -> not_later e e'
  | None => forall e', e' ∈ es -> date_gt (pdate e') today = false
  end.
Proof.
  unfold summarize. simpl.
  destruct (next_where _ (sort_by_date es)) as [e|] eqn:E.
  - apply next_after_is_earliest in E as (Hin & He & Hmin);
      [|apply sort_by_date_sorted].
    rewrite sort_by_date_perm in Hin. split; [exact Hin|]. split; [exact He|].
    intros e' Hin'. apply Hmin. now rewrite sort_by_date_perm.
  - apply next_where_None in E. rewrite Forall_forall in E.
    intros e' Hin'. apply (E e'). now rewrite sort_by_date_perm.
Qed.

(** A water body with an event has a recent or an upcoming one. *)
Lemma summarize_not_both_absent (today : date) (es : list plant) :
  es <> [] ->
  ~ (recent (summarize today es) = None /\ upcoming (summarize today es) = None).
Proof.
  intros Hne [Hr Hu]. destruct es as [|e es]; [congruence|].
  pose proof (summarize_recent today (e :: es)) as H1.
  pose proof (summarize_upcoming today (e :: es)) as H2.
  rewrite Hr in H1. rewrite Hu in H2.
  specialize (H1 e (list_elem_of_here _ _)). specialize (H2 e (list_elem_of_here _ _)).
  destruct (date_le_or_gt (pdate e) today) as [[? ?]|[? ?]]; congruence.
Qed.

(** The scraper returns a mapping exactly for a page with a table, and the
    mapping is built from the surviving events. *)
Lemma get_fish_plants_results (page : fetched) (today : date)
    (county_input : string) (results : list (string * water_result)) :
  (get_fish_plants_for_county page today county_input).1 = Some results ->
  results = build_results today (page_plants page county_input)
  /\ (get_fish_plants_for_county page today county_input).2 = None.
Proof. destruct page as [msg|[trs|]]; simpl; [discriminate | | discriminate]. now intros [= <-]. Qed.

(** Every water body with a surviving event is a key of the mapping, and no
    key occurs twice. *)
Lemma water_body_has_key (today : date) (plants : list plant) (e : plant) :
  e ∈ plants -> exists r, (water e, r) ∈ build_results today plants.
Proof.
  intros Hin. eexists. apply build_results_elem. split; [|reflexivity].
  intros Hnil. assert (e ∈ plants_of (water e) plants) as H by now apply plants_of_elem.
  rewrite Hnil in H. inversion H.
Qed.

Lemma build_results_extremes (today : date) (plants : list plant)
    (w : string) (r : water_result) :
  (w, r) ∈ build_results today plants ->
  let events := fun e => e ∈ plants /\ water e = w in
  (exists e, events e)
  /\ latest_on_or_before today events (recent r)
  /\ earliest_after today events (upcoming r).
Proof.
  intros Hin events. apply build_results_elem in Hin as [Hne ->].
  assert (forall e, events e <-> e ∈ plants_of w plants) as Hev
    by (intros e; unfold events; now rewrite plants_of_elem).
  pose proof (summarize_recent today (plants_of w plants)) as Hrec.
  pose proof (summarize_upcoming today (plants_of w plants)) as Hup.
  split; [|split; split].
  - destruct (plants_of w plants) as [|e l] eqn:E; [congruence|].
    exists e. apply Hev. left.
  - intros (e0 & He0 & Hd0). apply Hev in He0.
    destruct (recent (summarize today (plants_of w plants))) as [e|].
    + destruct Hrec as (Hin & Hd & Hmax). exists e.
      split; [reflexivity|]. split; [now apply Hev|]. split; [exact Hd|].
      intros e' He' Hd'. apply Hmax; [now apply Hev | exact Hd'].
    + specialize (Hrec e0 He0). congruence.
  - intros Hnone. destruct (recent (summarize today (plants_of w plants))) as [e|];
      [|reflexivity].
    destruct Hrec as (Hin & Hd & _). apply Hev in Hin. specialize (Hnone e Hin). congruence.
  - intros (e0 & He0 & Hd0). apply Hev in He0.
    destruct (upcoming (summarize today (plants_of w plants))) as [e|].
    + destruct Hup as (Hin & Hd & Hmin). exists e.
      split; [reflexivity|]. split; [now apply Hev|]. split; [exact Hd|].
      intros e' He' Hd'. apply Hmin; [now apply Hev | exact Hd'].
    + specialize (Hup e0 He0). congruence.
  - intros Hnone. destruct (upcoming (summarize today (plants_of w plants))) as [e|];
      [|reflexivity].
    destruct Hup as (Hin & Hd & _). apply Hev in Hin. specialize (Hnone e Hin). congruence.
Qed.

(** C1. For every page, day and county query for which
    [get_fish_plants_for_county] returns a mapping: every water body with a
    surviving event is a key of the mapping, no key occurs twice, and for
    every water body in it: it has a surviving event; when it has one dated
    on or before today, [recent] is one of them with the latest such date,
    and [recent] is absent when it has none; when it has one dated after
    today, [upcoming] is one of them with the earliest such date, and
    [upcoming] is absent when it has none. *)
Theorem recent_upcoming_extremes
    (page : fetched) (today : date) (county_input : string)
    (results : list (string * water_result)) :
  (get_fish_plants_for_county page today county_input).1 = Some results ->
  NoDup results.*1
  /\ (forall e, e ∈ page_plants page county_input ->
                exists r, (water e, r) ∈ results)
  /\ (forall (w : string) (r : water_result),
        (w, r) ∈ results ->
        let events := fun e => e ∈ page_plants page county_input /\ water e = w in
        (exists e, events e)
        /\ latest_on_or_before today events (recent r)
        /\ earliest_after today events (upcoming r)).
Proof.
  intros Hres. apply get_fish_plants_results in Hres as [-> _].
  split; [apply build_results_keys_NoDup|].
  split; [intros e; apply water_body_has_key|].
  intros w r. apply build_results_extremes.
Qed.

(** Shaver Lake with plants on May 25, June 1 and June 22, seen on June 10. *)
Lemma recent_upcoming_extremes_witness :
  (get_fish_plants_for_county (Soup (Some shaver_table)) sample_today "fresno").1
  = Some [("Shaver Lake", mkresult (Some shaver_recent) (Some shaver_upcoming))]
  /\ (NoDup ["Shaver Lake"]
      /\ (forall e, e ∈ page_plants (Soup (Some shaver_table)) "fresno" ->
                    exists r, (water e, r) ∈
                      [("Shaver Lake", mkresult (Some shaver_recent) (Some shaver_upcoming))])
      /\ (forall (w : string) (r : water_result),
            (w, r) ∈ [("Shaver Lake", mkresult (Some shaver_recent) (Some shaver_upcoming))] ->
            let events := fun e =>
              e ∈ page_plants (Soup (Some shaver_table)) "fresno" /\ water e = w in
            (exists e, events e)
            /\ latest_on_or_before sample_today events (recent r)
            /\ earliest_after sample_today events (upcoming r))).
Proof.
  split; [reflexivity|].
  apply (recent_upcoming_extremes (Soup (Some shaver_table)) sample_today "fresno"
           [("Shaver Lake", mkresult (Some shaver_recent) (Some shaver_upcoming))]).
  reflexivity.
Defined.

(** ** A key always has an event *)

(** C3, as stated, fails: there is no page, day and query for which the
    returned mapping has a key with neither [recent] nor [upcoming]; a key
    has an event, and its date is on or before today or after it.  On the
    sample page both water bodies that match have a value. *)
Lemma never_both_absent :
  (get_fish_plants_for_county (Soup (Some sample_table)) sample_today "fresno").1
  = Some
      [ ("Kings River", mkresult (Some kings_plant) None);
        ("Shaver Lake", mkresult (Some shaver_recent) None) ]
  /\ ~ (exists (page : fetched) (today : date) (county_input : string)
               (results : list (string * water_result))
               (w : string) (r : water_result),
          (get_fish_plants_for_county page today county_input).1 = Some results
          /\ (w, r) ∈ results
          /\ recent r = None /\ upcoming r = None).
Proof.
  split; [reflexivity|].
  intros (page & today & county_input & results & w & r & Hres & Hin & Hr & Hu).
  apply get_fish_plants_results in Hres as [-> _].
  apply build_results_elem in Hin as [Hne ->].
  now apply (summarize_not_both_absent today _ Hne).
Qed.

(** C3, amended. Every water body that is a key of the returned mapping has
    [recent] or [upcoming] present; both are never absent together. *)
Theorem recent_or_upcoming_present
    (page : fetched) (today : date) (county_input : string)
    (results : list (string * water_result)) :
  (get_fish_plants_for_county page today county_input).1 = Some results ->
  forall (w : string) (r : water_result),
    (w, r) ∈ results -> is_Some (recent r) \/ is_Some (upcoming r).
Proof.
  intros Hres w r Hin. apply get_fish_plants_results in Hres as [-> _].
  apply build_results_elem in Hin as [Hne ->].
  pose proof (summarize_not_both_absent today _ Hne) as H.
  destruct (recent _) as [e|]; [left; eauto|].
  destruct (upcoming _) as [e|]; [right; eauto|].
  exfalso. now apply H.
Qed.

(** On the sample page Kings River and Shaver Lake have a recent plant and
    no upcoming one. *)
Lemma recent_or_upcoming_present_witness :
  (get_fish_plants_for_county (Soup (Some sample_table)) sample_today "fresno").1
  = Some [ ("Kings River", mkresult (Some kings_plant) None);
           ("Shaver Lake", mkresult (Some shaver_recent) None) ]
  /\ (forall (w : string) (r : water_result),
        (w, r) ∈ [ ("Kings River", mkresult (Some kings_plant) None);
                   ("Shaver Lake", mkresult (Some shaver_recent) None) ] ->
        is_Some (recent r) \/ is_Some (upcoming r)).
Proof.
  split; [reflexivity|].
  apply (recent_or_upcoming_present (Soup (Some sample_table)) sample_today "fresno"
           [ ("Kings River", mkresult (Some kings_plant) None);
             ("Shaver Lake", mkresult (Some shaver_recent) None) ]).
  reflexivity.
Defined.

(** ** The scenario of the Lake Tahoe row *)

(** C2, as stated, fails: when the second cell is the link
    [<a>Lake Tahoe</a>] the loop over its children stops at the link before
    any text, the water name is empty and the row is skipped, so the El
    Dorado results are empty.  (Were the cell the literal text, the name
    would be that text with its angle brackets.) *)
Lemma tahoe_link_row_skipped :
  water_name_loop [Tag "a" [NavigableString "Lake Tahoe"]] "" = ""
  /\ clean_water_name [Tag "a" [NavigableString "Lake Tahoe"]] = ""
  /\ row_plant "El Dorado" tahoe_link_row = None
  /\ get_fish_plants_for_county (Soup (Some [header_row; tahoe_link_row]))
       sample_today "El Dorado" = (Some [], None)
  /\ clean_water_name [NavigableString "<a>Lake Tahoe</a>"] = "<a>Lake Tahoe</a>".
Proof. repeat split. Qed.

(** C2, amended. For the row whose second cell is the text "Lake Tahoe"
    followed by a link, and the query "El Dorado", the scraper produces the
    water name "Lake Tahoe" without the text of the link and the start date
    2025-06-01, and the event is in the El Dorado results, as the recent or
    as the upcoming plant of Lake Tahoe according to the day. *)
Theorem tahoe_row_scraped :
  clean_water_name [NavigableString "Lake Tahoe "; Tag "a" [NavigableString "Map"]]
  = "Lake Tahoe"
  /\ Strptime.strptime (Str.strip (start_str "06/01/2025 - 06/07/2025"))
     = Some (mkdate 2025 6 1)
  /\ row_plant "El Dorado" tahoe_row
     = Some (mkplant "Lake Tahoe" (mkdate 2025 6 1)
               "06/01/2025 - 06/07/2025" "Rainbow Trout")
  /\ forall today : date,
       get_fish_plants_for_county (Soup (Some [header_row; tahoe_row])) today "El Dorado"
       = (Some [("Lake Tahoe",
                 if date_le (mkdate 2025 6 1) today
                 then mkresult (Some tahoe_plant) None
                 else mkresult None (Some tahoe_plant))], None).
Proof.
  split; [reflexivity|]. split; [reflexivity|]. split; [reflexivity|].
  intros today.
  change (get_fish_plants_for_county (Soup (Some [header_row; tahoe_row])) today "El Dorado")
    with (Some [("Lake Tahoe", summarize today [tahoe_plant])], @None string).
  unfold summarize, date_gt. simpl.
  now destruct (date_le (mkdate 2025 6 1) today).
Qed.

(** ** The start date of a row *)

(** The token before the separator: before the leftmost " - " when the
    text has one, else before the leftmost "-" when it has one, else the
    whole text. *)
Lemma start_str_token (week_text : string) :
  (Str.contains " - " week_text = true ->
   (exists rest, week_text = start_str week_text +:+ " - " +:+ rest)
   /\ forall a b, week_text = a +:+ " - " +:+ b ->
                  (String.length (start_str week_text) <= String.length a)%nat)
  /\ (Str.contains " - " week_text = false -> Str.contains "-" week_text = true ->
      (exists rest, week_text = start_str week_text +:+ "-" +:+ rest)
      /\ forall a b, week_text = a +:+ "-" +:+ b ->
                     (String.length (start_str week_text) <= String.length a)%nat)
  /\ (Str.contains " - " week_text = false -> Str.contains "-" week_text = false ->
      start_str week_text = week_text).
Proof.
  unfold start_str. split; [|split].
  - intros H. rewrite H. split; [now apply split_head_found|].
    intros a b ->. apply split_head_leftmost.
  - intros H1 H2. rewrite H1. split; [now apply split_head_found|].
    intros a b ->. apply split_head_leftmost.
  - intros H1 H2. rewrite H1. now apply split_head_absent.
Qed.

(** The date of an event is the parsed token of its row, and a row whose
    token does not parse yields no event. *)
Lemma row_plant_date (county_input : string) (c0 c1 c2 c3 : cell)
    (rest : list cell) :
  match row_plant county_input (c0 :: c1 :: c2 :: c3 :: rest) with
  | Some p =>
      Strptime.strptime (Str.strip (start_str (get_text_strip c0))) = Some (pdate p)
      /\ week p = get_text_strip c0
  | None => True
  end
  /\ (Strptime.strptime (Str.strip (start_str (get_text_strip c0))) = None ->
      row_plant county_input (c0 :: c1 :: c2 :: c3 :: rest) = None).
Proof.
  unfold row_plant.
  destruct (Str.is_empty (clean_water_name c1)); [now split|].
  destruct (negb _); [now split|].
  destruct (Strptime.strptime _) as [d|]; [|now split].
  split; [now split | discriminate].
Qed.

(** Only surviving events appear in the mapping. *)
Lemma result_event_survives (today : date) (plants : list plant)
    (w : string) (r : water_result) (e : plant) :
  (w, r) ∈ build_results today plants ->
  recent r = Some e \/ upcoming r = Some e ->
  e ∈ plants /\ water e = w.
Proof.
  intros Hin Hre. apply build_results_elem in Hin as [_ ->].
  apply plants_of_elem.
  pose proof (summarize_recent today (plants_of w plants)) as Hrec.
  pose proof (summarize_upcoming today (plants_of w plants)) as Hup.
  destruct Hre as [H|H]; rewrite H in *; [apply Hrec | apply Hup].
Qed.

(** C7. The start date of a row is read from the token before the first
    range separator of the text of its first cell (" - " when the text has
    one, else "-"), trimmed and parsed as month/day/four-digit year; a date
    that is parsed is a calendar date whose month, day and year are the
    three numerals of the token, and every calendar date written
    mm/dd/yyyy is parsed as itself; a row whose token parses, with a water
    name and a matching county, yields the event with that date; a row
    whose token does not parse yields no event, no error is reported for
    it, and every event of the returned mapping comes from a row whose
    token parsed. *)
Theorem start_date_matches_token :
  (forall week_text : string,
     (Str.contains " - " week_text = true ->
      (exists rest, week_text = start_str week_text +:+ " - " +:+ rest)
      /\ forall a b, week_text = a +:+ " - " +:+ b ->
                     (String.length (start_str week_text) <= String.length a)%nat)
     /\ (Str.contains " - " week_text = false -> Str.contains "-" week_text = true ->
         (exists rest, week_text = start_str week_text +:+ "-" +:+ rest)
         /\ forall a b, week_text = a +:+ "-" +:+ b ->
                        (String.length (start_str week_text) <= String.length a)%nat)
     /\ (Str.contains " - " week_text = false -> Str.contains "-" week_text = false ->
         start_str week_text = week_text))
  /\ (forall (token : string) (d : date),
        Strptime.strptime token = Some d ->
        exists mt dt yt,
          token = mt +:+ "/" +:+ dt +:+ "/" +:+ yt
          /\ int_of mt = Some (month d) /\ int_of dt = Some (day d)
          /\ int_of yt = Some (year d) /\ String.length yt = 4%nat
          /\ valid_date (year d) (month d) (day d) = true)
  /\ (forall d : date,
        valid_date (year d) (month d) (day d) = true ->
        Strptime.strptime (mdY_text d) = Some d)
  /\ (forall (county_input : string) (c0 c1 c2 c3 : cell) (rest : list cell) (d : date),
        Strptime.strptime (Str.strip (start_str (get_text_strip c0))) = Some d ->
        Str.is_empty (clean_water_name c1) = false ->
        Str.contains (Str.lower county_input) (Str.lower (get_text_strip c2)) = true ->
        row_plant county_input (c0 :: c1 :: c2 :: c3 :: rest)
        = Some (mkplant (clean_water_name c1) d (get_text_strip c0) (get_text_strip c3)))
  /\ (forall (county_input : string) (c0 c1 c2 c3 : cell) (rest : list cell) (p : plant),
        row_plant county_input (c0 :: c1 :: c2 :: c3 :: rest) = Some p ->
        Strptime.strptime (Str.strip (start_str (get_text_strip c0))) = Some (pdate p)
        /\ week p = get_text_strip c0)
  /\ (forall (county_input : string) (c0 c1 c2 c3 : cell) (rest : list cell),
        Strptime.strptime (Str.strip (start_str (get_text_strip c0))) = None ->
        row_plant county_input (c0 :: c1 :: c2 :: c3 :: rest) = None)
  /\ (forall (trs : list row) (today : date) (county_input : string),
        (get_fish_plants_for_county (Soup (Some trs)) today county_input).2 = None)
  /\ (forall (trs : list row) (today : date) (county_input : string)
             (results : list (string * water_result))
             (w : string) (r : water_result) (e : plant),
        (get_fish_plants_for_county (Soup (Some trs)) today county_input).1
        = Some results ->
        (w, r) ∈ results ->
        recent r = Some e \/ upcoming r = Some e ->
        exists cols, cols ∈ tail trs /\ row_plant county_input cols = Some e
                     /\ row_is_event cols = true).
Proof.
  split; [exact start_str_token|]. split; [exact strptime_fields|].
  split; [exact strptime_mdY_text|].
  split; [|split; [|split; [|split]]].
  - intros county_input c0 c1 c2 c3 rest d Hd Hw Hc. unfold row_plant.
    now rewrite Hw, Hc, Hd.
  - intros county_input c0 c1 c2 c3 rest p H.
    pose proof (row_plant_date county_input c0 c1 c2 c3 rest) as [Hd _].
    now rewrite H in Hd.
  - intros county_input c0 c1 c2 c3 rest. apply row_plant_date.
  - reflexivity.
  - intros trs today county_input results w r e Hres Hin Hre.
    apply get_fish_plants_results in Hres as [-> _].
    destruct (result_event_survives _ _ _ _ _ Hin Hre) as [He _].
    simpl in He. unfold collect_plants in He.
    apply list_elem_of_omap in He as (cols & Hc & Hrow).
    exists cols. split; [exact Hc|]. split; [exact Hrow|].
    assert (is_Some (row_plant county_input cols)) as Hs by (rewrite Hrow; eauto).
    now apply row_plant_is_Some in Hs.
Qed.

(** * Further properties *)

(** ** The order of strings *)

Ltac ascii_order :=
  repeat match goal with
         | H : Ascii.compare _ _ = Eq |- _ => apply Ascii.compare_eq_iff in H; subst
         | H : Ascii.compare ?a ?b = Lt |- _ =>
             change (N.lt (N_of_ascii a) (N_of_ascii b)) in H
         | H : Ascii.compare ?a ?b = Gt |- _ =>
             change (N.gt (N_of_ascii a) (N_of_ascii b)) in H
         end.

Lemma string_compare_refl (a : string) : String.compare a a = Eq.
Proof.
  induction a as [|x a IH]; cbn [String.compare]; [reflexivity|].
  destruct (Ascii.compare x x) eqn:E; [exact IH | |]; ascii_order; exfalso; lia.
Qed.

Lemma string_lt_trans (a b c : string) :
  String.compare a b = Lt -> String.compare b c = Lt -> String.compare a c = Lt.
Proof.
  revert b c. induction a as [|x a IH]; intros [|y b] [|z c]; cbn [String.compare];
    try discriminate; try reflexivity.
  destruct (Ascii.compare x y) eqn:Exy; destruct (Ascii.compare y z) eqn:Eyz;
    destruct (Ascii.compare x z) eqn:Exz;
    try discriminate; try reflexivity; ascii_order;
    try (exfalso; lia); eauto.
Qed.

Lemma string_leb_trans (a b c : string) :
  String.leb a b = true -> String.leb b c = true -> String.leb a c = true.
Proof.
  unfold String.leb.
  destruct (String.compare a b) eqn:Eab; [| |discriminate];
    destruct (String.compare b c) eqn:Ebc; try discriminate; intros _ _.
  - apply String.compare_eq_iff in Eab as ->. now rewrite Ebc.
  - apply String.compare_eq_iff in Eab as ->. now rewrite Ebc.
  - apply String.compare_eq_iff in Ebc as ->. now rewrite Eab.
  - now rewrite (string_lt_trans _ _ _ Eab Ebc).
Qed.

Lemma string_leb_neq_ltb (a b : string) :
  String.leb a b = true -> a <> b -> String.ltb a b = true.
Proof.
  unfold String.leb, String.ltb.
  destruct (String.compare a b) eqn:E; [|reflexivity|discriminate].
  apply String.compare_eq_iff in E. congruence.
Qed.

(** ** [sorted] *)

Lemma insert_sorted_perm (s : string) (l : list string) :
  insert_sorted s l ≡ₚ s :: l.
Proof.
  induction l as [|t l IH]; simpl; [reflexivity|].
  destruct (String.leb s t); [reflexivity|].
  rewrite IH. apply Permutation_swap.
Qed.

Lemma py_sorted_perm (l : list string) : py_sorted l ≡ₚ l.
Proof.
  induction l as [|s l IH]; simpl; [reflexivity|].
  now rewrite insert_sorted_perm, IH.
Qed.

Lemma insert_sorted_sorted (s : string) (l : list string) :
  StronglySorted (fun a b => String.leb a b = true) l ->
  StronglySorted (fun a b => String.leb a b = true) (insert_sorted s l).
Proof.
  induction 1 as [|t l Hs IH Ht]; simpl; [repeat constructor|].
  destruct (String.leb s t) eqn:E.
  - constructor; [now constructor|].
    constructor; [exact E|].
    eapply Forall_impl; [exact Ht|]. intros x Hx. simpl in *.
    eapply string_leb_trans; eassumption.
  - constructor; [exact IH|].
    rewrite insert_sorted_perm. constructor; [|exact Ht].
    destruct (String.leb_total s t); congruence.
Qed.

Lemma py_sorted_sorted (l : list string) :
  StronglySorted (fun a b => String.leb a b = true) (py_sorted l).
Proof.
  induction l as [|s l IH]; simpl; [constructor|].
  now apply insert_sorted_sorted.
Qed.

(** A sorted list without duplicates is strictly ascending. *)
Lemma sorted_NoDup_strict (l : list string) :
  StronglySorted (fun a b => String.leb a b = true) l ->
  NoDup l ->
  StronglySorted (fun a b => String.ltb a b = true) l.
Proof.
  induction 1 as [|s l Hs IH Hall]; intros Hnd; [constructor|].
  apply NoDup_cons in Hnd as [Hs' Hnd]. constructor; [now apply IH|].
  rewrite Forall_forall in Hall |- *. intros x Hx.
  apply string_leb_neq_ltb; [now apply Hall|]. intros ->. contradiction.
Qed.

Lemma py_sorted_strict (l : list string) :
  NoDup l -> StronglySorted (fun a b => String.ltb a b = true) (py_sorted l).
Proof.
  intros Hnd. apply sorted_NoDup_strict; [apply py_sorted_sorted|].
  now rewrite py_sorted_perm.
Qed.

(** Ordering the items of a dictionary orders its keys. *)
Lemma insert_by_key_keys {V : Type} (kv : string * V) (l : list (string * V)) :
  (insert_by_key kv l).*1 = insert_sorted kv.1 l.*1.
Proof.
  induction l as [|kv' l IH]; simpl; [reflexivity|].
  destruct (String.leb kv.1 kv'.1); simpl; [reflexivity | f_equal; exact IH].
Qed.

Lemma sort_by_key_keys {V : Type} (l : list (string * V)) :
  (sort_by_key l).*1 = py_sorted l.*1.
Proof.
  induction l as [|kv l IH]; [reflexivity|].
  change ((insert_by_key kv (sort_by_key l)).*1 = insert_sorted kv.1 (py_sorted l.*1)).
  rewrite insert_by_key_keys. f_equal. exact IH.
Qed.

(** X1. The water bodies of the mapping that [get_fish_plants_for_county]
    returns come in strictly ascending order of their names. *)
Theorem results_keys_ascending
    (page : fetched) (today : date) (county_input : string)
    (found : list (string * water_result)) :
  (get_fish_plants_for_county page today county_input).1 = Some found ->
  StronglySorted (fun a b => String.ltb a b = true) found.*1.
Proof.
  intros Hres. apply get_fish_plants_results in Hres as [-> _].
  pose proof (build_results_keys_NoDup today (page_plants page county_input)) as Hnd.
  unfold build_results in *. rewrite sort_by_key_keys in *.
  apply sorted_NoDup_strict; [apply py_sorted_sorted | exact Hnd].
Qed.

(** On the sample page Shaver Lake comes first in the page and second in
    the mapping. *)
Lemma results_keys_ascending_witness :
  (get_fish_plants_for_county (Soup (Some sample_table)) sample_today "fresno").1
  = Some [ ("Kings River", mkresult (Some kings_plant) None);
           ("Shaver Lake", mkresult (Some shaver_recent) None) ]
  /\ StronglySorted (fun a b => String.ltb a b = true) ["Kings River"; "Shaver Lake"].
Proof.
  split; [reflexivity|].
  apply (results_keys_ascending (Soup (Some sample_table)) sample_today "fresno"
           [ ("Kings River", mkresult (Some kings_plant) None);
             ("Shaver Lake", mkresult (Some shaver_recent) None) ]).
  reflexivity.
Defined.

(** ** The county list on success *)

(** X2. When the county list is refreshed from a page that was fetched and
    parsed, the list returned is strictly ascending, holds exactly the
    title-cased texts of the third cells of the rows after the first (rows
    with fewer than three cells or an empty text apart), and is stored with
    the time of the call. *)
Theorem get_counties_success_sorted_set
    (trs : list row) (now : Z) (st : counties_state) :
  cache_is_fresh st now = false ->
  let counties := (get_counties_from_cdfw (CountiesSoup trs) now st).1 in
  StronglySorted (fun a b => String.ltb a b = true) counties
  /\ (forall c, c ∈ counties
                <-> exists cols, cols ∈ tail trs /\ row_county cols = Some c)
  /\ (get_counties_from_cdfw (CountiesSoup trs) now st).2
     = mkcounties (Some counties) (Some now).
Proof.
  intros Hstale counties. unfold counties, get_counties_from_cdfw.
  rewrite Hstale. simpl. split; [|split; [|reflexivity]].
  - apply py_sorted_strict, NoDup_elements.
  - intros c. rewrite py_sorted_perm, elem_of_elements, elem_of_list_to_set.
    apply list_elem_of_omap.
Qed.

Lemma get_counties_success_sorted_set_witness :
  cache_is_fresh stale_counties 7200000000 = false
  /\ (let counties :=
        (get_counties_from_cdfw (CountiesSoup sample_table) 7200000000 stale_counties).1 in
      StronglySorted (fun a b => String.ltb a b = true) counties
      /\ (forall c, c ∈ counties
                    <-> exists cols, cols ∈ tail sample_table /\ row_county cols = Some c)
      /\ (get_counties_from_cdfw (CountiesSoup sample_table) 7200000000 stale_counties).2
         = mkcounties (Some counties) (Some 7200000000)).
Proof.
  split; [reflexivity|].
  apply (get_counties_success_sorted_set sample_table 7200000000 stale_counties).
  reflexivity.
Defined.

(** ** The county cache over time *)

(** X3. After a refresh that found at least one county, every call less
    than 3600 seconds later returns the same list and leaves the globals
    alone, whatever the page would give, a failure included; from 3600
    seconds on the page is fetched again, and a failure then gives the
    fallback list, not the stored one. *)
Theorem get_counties_cache_ttl
    (trs : list row) (t now : Z) (page : counties_page) (f : failure)
    (st : counties_state) :
  cache_is_fresh st t = false ->
  (get_counties_from_cdfw (CountiesSoup trs) t st).1 <> [] ->
  let first := get_counties_from_cdfw (CountiesSoup trs) t st in
  (now - t < 3600 * 1000000 ->
   get_counties_from_cdfw page now first.2 = (first.1, first.2))
  /\ (3600 * 1000000 <= now - t ->
      get_counties_from_cdfw (CountiesFailure f) now first.2
      = (FALLBACK_COUNTIES, first.2)).
Proof.
  intros Hstale Hne first.
  assert (exists c l, first = (c :: l, mkcounties (Some (c :: l)) (Some t)))
    as (c & l & Hfirst).
  { unfold first, get_counties_from_cdfw in *. rewrite Hstale in *.
    cbn [fst] in Hne. destruct (py_sorted _) as [|c l]; [congruence|].
    now exists c, l. }
  rewrite Hfirst. cbn [fst snd].
  unfold get_counties_from_cdfw, cache_is_fresh. cbn [COUNTIES_CACHE CACHE_TIME].
  split; intros Hage.
  - now rewrite (proj2 (Z.ltb_lt _ _) Hage).
  - rewrite (proj2 (Z.ltb_ge _ _) Hage). now rewrite FALLBACK_COUNTIES_sorted.
Qed.

(** The sample page read at time 0, asked again one microsecond before and
    at the end of the hour. *)
Lemma get_counties_cache_ttl_witness :
  cache_is_fresh (mkcounties None None) 0 = false
  /\ (get_counties_from_cdfw (CountiesSoup sample_table) 0 (mkcounties None None)).1 <> []
  /\ get_counties_from_cdfw (CountiesFailure Timeout) 3599999999 sample_counties
     = (["Fresno County"; "Madera"; "North Fresno"], sample_counties)
  /\ get_counties_from_cdfw (CountiesFailure Timeout) 3600000000 sample_counties
     = (FALLBACK_COUNTIES, sample_counties).
Proof.
  assert (get_counties_from_cdfw (CountiesSoup sample_table) 0 (mkcounties None None)
          = (["Fresno County"; "Madera"; "North Fresno"], sample_counties)) as Hfirst
    by (vm_compute; reflexivity).
  assert ((get_counties_from_cdfw (CountiesSoup sample_table) 0 (mkcounties None None)).1
          <> []) as Hne by (rewrite Hfirst; discriminate).
  split; [reflexivity|]. split; [exact Hne|].
  pose proof (get_counties_cache_ttl sample_table 0 3599999999
                (CountiesFailure Timeout) Timeout (mkcounties None None)
                eq_refl Hne) as Hhit.
  pose proof (get_counties_cache_ttl sample_table 0 3600000000
                (CountiesFailure Timeout) Timeout (mkcounties None None)
                eq_refl Hne) as Hexp.
  cbv zeta in Hhit, Hexp. rewrite Hfirst in Hhit, Hexp.
  split; [apply Hhit; lia | apply Hexp; lia].
Defined.

(** X4. A refresh that found no county returns the empty list and stores
    it, and the empty list never counts as a fresh cache: every later call,
    however soon, fetches the page again, and gives what a process without
    cache would give; on a failure that is the fallback list. *)
Theorem get_counties_empty_not_cached
    (trs : list row) (t : Z) (st : counties_state) :
  cache_is_fresh st t = false ->
  (forall cols, cols ∈ tail trs -> row_county cols = None) ->
  get_counties_from_cdfw (CountiesSoup trs) t st
  = ([], mkcounties (Some []) (Some t))
  /\ (forall now : Z, cache_is_fresh (mkcounties (Some []) (Some t)) now = false)
  /\ (forall (now : Z) (f : failure),
        get_counties_from_cdfw (CountiesFailure f) now (mkcounties (Some []) (Some t))
        = (FALLBACK_COUNTIES, mkcounties (Some []) (Some t)))
  /\ (forall (now : Z) (trs' : list row),
        get_counties_from_cdfw (CountiesSoup trs') now (mkcounties (Some []) (Some t))
        = get_counties_from_cdfw (CountiesSoup trs') now (mkcounties None None)).
Proof.
  intros Hstale Hnone.
  assert (omap row_county (tail trs) = []) as Hnil.
  { induction (tail trs) as [|cols l IH]; [reflexivity|]. simpl.
    rewrite (Hnone cols) by left. apply IH. intros c Hc. apply Hnone. now right. }
  split; [|split; [reflexivity|split; [|reflexivity]]].
  - unfold get_counties_from_cdfw. rewrite Hstale, Hnil. reflexivity.
  - intros now f. unfold get_counties_from_cdfw. cbn [cache_is_fresh COUNTIES_CACHE].
    now rewrite FALLBACK_COUNTIES_sorted.
Qed.

(** A page whose only row is the header, read by a fresh process. *)
Lemma get_counties_empty_not_cached_witness :
  cache_is_fresh (mkcounties None None) 0 = false
  /\ (forall cols, cols ∈ tail [header_row] -> row_county cols = None)
  /\ (get_counties_from_cdfw (CountiesSoup [header_row]) 0 (mkcounties None None)
      = ([], mkcounties (Some []) (Some 0))
      /\ (forall now : Z, cache_is_fresh (mkcounties (Some []) (Some 0)) now = false)
      /\ (forall (now : Z) (f : failure),
            get_counties_from_cdfw (CountiesFailure f) now (mkcounties (Some []) (Some 0))
            = (FALLBACK_COUNTIES, mkcounties (Some []) (Some 0)))
      /\ (forall (now : Z) (trs' : list row),
            get_counties_from_cdfw (CountiesSoup trs') now (mkcounties (Some []) (Some 0))
            = get_counties_from_cdfw (CountiesSoup trs') now (mkcounties None None))).
Proof.
  assert (forall cols, cols ∈ tail [header_row] -> row_county cols = None) as Hrows
    by (simpl; intros cols Hc; inversion Hc).
  split; [reflexivity|]. split; [exact Hrows|].
  exact (get_counties_empty_not_cached [header_row] 0 (mkcounties None None)
           eq_refl Hrows).
Defined.

(** ** The geocoder over a run *)

#[local] Set Warnings "-clear-no-such-hyp".

Section GeocoderRun.

Variable service : list string -> string -> geo_response.

(** One call: a key that is new is added and one query goes out; nothing
    happens otherwise. *)
Lemma geocode_water_step (water county : string) (st : geo_state) :
  let st' := (geocode_water service water county st).2 in
  match GEOCODE_CACHE st !! cache_key water county with
  | Some _ => st' = st
  | None =>
      queries st' = queries st ++ [geo_query water county]
      /\ size (GEOCODE_CACHE st') = S (size (GEOCODE_CACHE st))
      /\ dom (GEOCODE_CACHE st') = {[cache_key water county]} ∪ dom (GEOCODE_CACHE st)
  end.
Proof.
  unfold geocode_water.
  destruct (GEOCODE_CACHE st !! cache_key water county) as [v|] eqn:Hc; [reflexivity|].
  destruct (service _ _) as [msg|[|[[la lo]|] data]]; simpl;
    (split; [reflexivity|]; split; [now apply map_size_insert_None | apply dom_insert_L]).
Qed.

Lemma geocode_all_invariant (calls : list (string * string)) (st : geo_state) :
  let st' := geocode_all service calls st in
  (length (queries st') + size (GEOCODE_CACHE st)
   = length (queries st) + size (GEOCODE_CACHE st'))%nat
  /\ (length (queries st') <= length (queries st) + length calls)%nat
  /\ dom (GEOCODE_CACHE st') = list_to_set (call_keys calls) ∪ dom (GEOCODE_CACHE st)
  /\ exists sent, queries st' = queries st ++ sent
                  /\ forall q, q ∈ sent ->
                               exists w c, (w, c) ∈ calls /\ q = geo_query w c.
Proof.
  revert st. induction calls as [|[w c] calls IH]; intros st; simpl.
  - split; [lia|]. split; [lia|]. split; [set_solver|].
    exists []. split; [now rewrite app_nil_r | intros q Hq; inversion Hq].
  - pose proof (geocode_water_step w c st) as Hstep. simpl in Hstep.
    specialize (IH (geocode_water service w c st).2).
    simpl in IH. destruct IH as (Hsize & Hlen & Hdom & sent & Hsent & Hq).
    change (fold_left _ calls ?s) with (geocode_all service calls s) in *.
    destruct (GEOCODE_CACHE st !! cache_key w c) as [v|] eqn:Hc.
    + rewrite Hstep in *. split; [exact Hsize|]. split; [lia|].
      split.
      * rewrite Hdom. assert (cache_key w c ∈ dom (GEOCODE_CACHE st))
          by (apply elem_of_dom; eauto). set_solver.
      * exists sent. split; [exact Hsent|]. intros q Hin.
        destruct (Hq q Hin) as (w' & c' & Hin' & ->). exists w', c'.
        split; [now right | reflexivity].
    + destruct Hstep as (Hqs & Hsz & Hd). rewrite Hqs, Hsz, Hd in *.
      rewrite length_app in *. simpl in *.
      split; [lia|]. split; [lia|]. split; [rewrite Hdom; set_solver|].
      exists (geo_query w c :: sent). split; [now rewrite Hsent, <- app_assoc|].
      intros q Hin. apply elem_of_cons in Hin as [->|Hin].
      * exists w, c. split; [left | reflexivity].
      * destruct (Hq q Hin) as (w' & c' & Hin' & ->). exists w', c'.
        split; [now right | reflexivity].
Qed.

End GeocoderRun.

(** X5. In a process that starts with an empty cache, after any sequence
    of geocoder calls and whatever the service answers: the number of
    queries sent equals the number of cache entries, so no key is asked for
    twice; it is at most the number of calls; the keys of the cache are
    exactly the keys of the calls made; and every query sent is the query
    text of one of the calls. *)
Theorem geocode_queries_match_cache
    (service : list string -> string -> geo_response)
    (calls : list (string * string)) :
  let st := geocode_all service calls empty_geo in
  length (queries st) = size (GEOCODE_CACHE st)
  /\ (length (queries st) <= length calls)%nat
  /\ dom (GEOCODE_CACHE st) = list_to_set (call_keys calls)
  /\ forall q, q ∈ queries st -> exists w c, (w, c) ∈ calls /\ q = geo_query w c.
Proof.
  intros st.
  destruct (geocode_all_invariant service calls empty_geo)
    as (Hsize & Hlen & Hdom & sent & Hsent & Hq).
  fold st in Hsize, Hlen, Hdom, Hsent. simpl in *.
  rewrite map_size_empty in Hsize. rewrite dom_empty_L in Hdom.
  split; [lia|]. split; [lia|]. split; [rewrite Hdom; set_solver|].
  rewrite Hsent. exact Hq.
Qed.

(** X6. A map request that is repeated renders the same page and sends no
    further query: the second call leaves the state as the first left it. *)
Theorem map_view_repeat
    (service : list string -> string -> geo_response)
    (county water : string) (st : geo_state) :
  let first := map_view service county water st in
  map_view service county water first.2 = (first.1, first.2)
  /\ queries (map_view service county water first.2).2 = queries first.2
  /\ (length (queries first.2) <= S (length (queries st)))%nat.
Proof.
  intros first. unfold first. clear first.
  destruct (geocode_water service (Url.unquote water) county st) as [o st1] eqn:Hg.
  assert (geocode_water service (Url.unquote water) county st1 = (o, st1)) as Hhit.
  { apply geocode_water_hit.
    pose proof (geocode_water_cached service (Url.unquote water) county st) as H.
    now rewrite Hg in H. }
  assert (forall s, geocode_water service (Url.unquote water) county s = (o, st1) ->
                    map_view service county water s
                    = ((map_view service county water st).1, st1)) as Hmv.
  { intros s Hs. unfold map_view. rewrite Hs, Hg.
    destruct o as [c|]; [reflexivity|].
    now destruct (get_county_seat_coords county). }
  rewrite (Hmv st Hg). cbn [fst snd]. rewrite (Hmv st1 Hhit). cbn [fst snd].
  rewrite (Hmv st Hg). cbn [fst snd].
  split; [reflexivity|]. split; [reflexivity|].
  pose proof (geocode_water_queries service (Url.unquote water) county st) as Hq.
  rewrite Hg in Hq. cbn [snd] in Hq. rewrite Hq.
  destruct (GEOCODE_CACHE st !! _); [lia|]. rewrite length_app. simpl. lia.
Qed.

(** ** Letter case *)

Ltac each_char c := destruct c as [[] [] [] [] [] [] [] []].

Lemma title_from_cons (b : bool) (c : ascii) (r : string) :
  Str.title_from b (String c r) = String (title_char b c) (Str.title_from (is_cased c) r).
Proof. each_char c; destruct b; reflexivity. Qed.

Lemma title_char_to_lower (b : bool) (c : ascii) :
  title_char b (Str.to_lower c) = title_char b c.
Proof. each_char c; destruct b; reflexivity. Qed.

Lemma is_cased_to_lower (c : ascii) : is_cased (Str.to_lower c) = is_cased c.
Proof. each_char c; reflexivity. Qed.

Lemma to_lower_title_char (b : bool) (c : ascii) :
  Str.to_lower (title_char b c) = Str.to_lower c.
Proof. each_char c; destruct b; reflexivity. Qed.

Lemma is_space_to_lower (c : ascii) : Str.is_space (Str.to_lower c) = Str.is_space c.
Proof. each_char c; reflexivity. Qed.

Lemma to_lower_not_C (c : ascii) : Ascii.eqb (Str.to_lower c) "C" = false.
Proof. each_char c; reflexivity. Qed.

(** [title] does not look at the case of its input. *)
Lemma title_from_lower (b : bool) (s : string) :
  Str.title_from b (Str.lower s) = Str.title_from b s.
Proof.
  revert b. induction s as [|c s IH]; intros b; [reflexivity|].
  change (Str.lower (String c s)) with (String (Str.to_lower c) (Str.lower s)).
  now rewrite !title_from_cons, title_char_to_lower, is_cased_to_lower, IH.
Qed.

(** [title] changes case only. *)
Lemma lower_title_from (b : bool) (s : string) :
  Str.lower (Str.title_from b s) = Str.lower s.
Proof.
  revert b. induction s as [|c s IH]; intros b; [reflexivity|].
  rewrite title_from_cons. simpl. now rewrite to_lower_title_char, IH.
Qed.

(** White space has no case: [lower] and [strip] commute. *)
Lemma lstrip_lower (s : string) : Str.lstrip (Str.lower s) = Str.lower (Str.lstrip s).
Proof.
  induction s as [|c s IH]; [reflexivity|]. simpl.
  rewrite is_space_to_lower. now destruct (Str.is_space c).
Qed.

Lemma is_empty_lower (s : string) : Str.is_empty (Str.lower s) = Str.is_empty s.
Proof. now destruct s. Qed.

Lemma rstrip_lower (s : string) : Str.rstrip (Str.lower s) = Str.lower (Str.rstrip s).
Proof.
  induction s as [|c s IH]; [reflexivity|]. simpl.
  rewrite is_space_to_lower, IH, is_empty_lower.
  now destruct (Str.is_space c && Str.is_empty (Str.rstrip s)).
Qed.

Lemma strip_lower (s : string) : Str.strip (Str.lower s) = Str.lower (Str.strip s).
Proof. unfold Str.strip. now rewrite lstrip_lower, rstrip_lower. Qed.

(** A lower-cased text has no " County" in it. *)
Lemma lower_no_County (s : string) : Str.contains " County" (Str.lower s) = false.
Proof.
  induction s as [|c s IH]; [reflexivity|].
  change (Str.lower (String c s)) with (String (Str.to_lower c) (Str.lower s)).
  rewrite contains_unfold. cbv beta iota. rewrite IH, orb_false_r.
  destruct s as [|d s]; [unfold String.prefix; now destruct (ascii_dec _ _)|].
  change (Str.lower (String d s)) with (String (Str.to_lower d) (Str.lower s)).
  unfold String.prefix. destruct (ascii_dec " " (Str.to_lower c)); [|reflexivity].
  destruct (ascii_dec "C" (Str.to_lower d)) as [E|]; [|reflexivity].
  pose proof (to_lower_not_C d) as H. rewrite <- E in H. discriminate H.
Qed.

Lemma title_strip_case (s s' : string) :
  Str.lower s = Str.lower s' -> Str.title (Str.strip s) = Str.title (Str.strip s').
Proof.
  intros H. unfold Str.title.
  rewrite <- (title_from_lower false (Str.strip s)), <- (title_from_lower false (Str.strip s')).
  now rewrite <- !strip_lower, H.
Qed.

(** ** The county seat and letter case *)

(** X7. On county names of the ASCII range, where [Str.lower] and
    [Str.title] are the methods of Python, the county-seat lookup does not
    look at the letter case: two such names without " County" that differ
    in case only get the same answer, "EL DORADO" and "el dorado" both that
    of "El Dorado", and every county of the table, all of whose names are
    of that range, is found under its lower-cased name.  The text " County"
    itself is matched with its capital C: a lower-cased "... county" stays
    in the name, and no county is found under its lower-cased name followed
    by " county". *)
Theorem county_seat_letter_case :
  (forall s s' : string,
     is_ascii s = true -> is_ascii s' = true ->
     Str.lower s = Str.lower s' ->
     Str.contains " County" s = false -> Str.contains " County" s' = false ->
     get_county_seat_coords s = get_county_seat_coords s')
  /\ (forall s : string,
        is_ascii s = true ->
        get_county_seat_coords (Str.lower s)
        = dict_get COUNTY_SEATS (Str.title (Str.strip s)))
  /\ (forall (k : string) (v : coords),
        (k, v) ∈ COUNTY_SEATS ->
        is_ascii k = true
        /\ get_county_seat_coords (Str.lower k) = Some v
        /\ get_county_seat_coords (Str.lower (k +:+ " County")) = None)
  /\ (is_ascii "EL DORADO" = true
      /\ get_county_seat_coords "EL DORADO" = Some (38.7296, -120.7985)%float
      /\ get_county_seat_coords "el dorado" = Some (38.7296, -120.7985)%float
      /\ get_county_seat_coords "el dorado county" = None).
Proof.
  split; [|split; [|split]].
  - intros s s' _ _ Hcase Hs Hs'. unfold get_county_seat_coords, normalize_county.
    rewrite (remove_all_absent _ _ Hs), (remove_all_absent _ _ Hs').
    now rewrite (title_strip_case s s' Hcase).
  - intros s _. unfold get_county_seat_coords, normalize_county.
    rewrite (remove_all_absent _ _ (lower_no_County s)).
    f_equal. apply title_strip_case. clear. induction s as [|c s IH]; [reflexivity|].
    simpl. rewrite IH. f_equal. each_char c; reflexivity.
  - assert (Forall (fun kv => is_ascii kv.1 = true
                              /\ get_county_seat_coords (Str.lower kv.1) = Some kv.2
                              /\ get_county_seat_coords (Str.lower (kv.1 +:+ " County")) = None)
              COUNTY_SEATS) as H
      by (repeat (constructor; [repeat split; reflexivity|]); constructor).
    intros k v Hin. rewrite Forall_forall in H. exact (H (k, v) Hin).
  - repeat split; reflexivity.
Qed.

(** ** The county list and the county filter together *)

Lemma prefix_refl (s : string) : String.prefix s s = true.
Proof. rewrite <- (append_empty_r s) at 2. apply prefix_app. Qed.

Lemma contains_refl (s : string) : Str.contains s s = true.
Proof. now rewrite contains_unfold, prefix_refl. Qed.

Lemma contains_trans (a b c : string) :
  Str.contains a b = true -> Str.contains b c = true -> Str.contains a c = true.
Proof.
  rewrite !contains_iff. intros (x & y & ->) (u & v & ->).
  exists (u +:+ x), (y +:+ v). now rewrite !append_assoc.
Qed.

Lemma row_county_matches (cols : row) (c : string) :
  row_county cols = Some c -> county_matches c cols = true.
Proof.
  unfold row_county, county_matches, county_text.
  destruct cols as [|c0 [|c1 [|c2 rest]]]; try discriminate.
  destruct (Str.is_empty (get_text_strip c2)); [discriminate|]. intros [= <-].
  unfold Str.title. rewrite lower_title_from. apply contains_refl.
Qed.

(** X8. For a document whose rows all lie in its first table, so that the
    county list and the scraper read the same rows, and whose strings are
    of the ASCII range, where [Str.lower] and [Str.title] are the methods
    of Python: every county that the refreshed county list offers matches,
    as a query of the scraper, a row of the document; when that row has a
    water name and a date that parses, the query yields its event among
    the plants the scraper collects from the first table. *)
Theorem offered_county_matches_row
    (sp : soup) (now : Z) (st : counties_state) (c : string) :
  first_table_rows sp = Some (document_rows sp) ->
  Forall (fun cols => row_is_ascii cols = true) (document_rows sp) ->
  cache_is_fresh st now = false ->
  c ∈ (get_counties_from_cdfw (CountiesSoup (document_rows sp)) now st).1 ->
  exists cols,
    cols ∈ tail (document_rows sp) /\ county_matches c cols = true
    /\ (row_is_event cols = true ->
        exists p, row_plant c cols = Some p
                  /\ p ∈ page_plants (Soup (first_table_rows sp)) c).
Proof.
  intros Htable _ Hstale Hin. rewrite Htable. cbn [page_plants].
  unfold get_counties_from_cdfw in Hin. rewrite Hstale in Hin.
  cbn [fst] in Hin.
  rewrite py_sorted_perm, elem_of_elements, elem_of_list_to_set in Hin.
  apply list_elem_of_omap in Hin as (cols & Hcols & Hc).
  exists cols. split; [exact Hcols|].
  pose proof (row_county_matches cols c Hc) as Hm. split; [exact Hm|].
  intros Hev.
  destruct (proj2 (row_plant_is_Some c cols) (conj Hev Hm)) as [p Hp].
  exists p. split; [exact Hp|]. unfold collect_plants.
  apply list_elem_of_omap. now exists cols.
Qed.

Lemma offered_county_matches_row_witness :
  first_table_rows sample_soup = Some (document_rows sample_soup)
  /\ Forall (fun cols => row_is_ascii cols = true) (document_rows sample_soup)
  /\ cache_is_fresh (mkcounties None None) 0 = false
  /\ "North Fresno"
     ∈ (get_counties_from_cdfw (CountiesSoup (document_rows sample_soup)) 0
          (mkcounties None None)).1
  /\ exists cols,
       cols ∈ tail (document_rows sample_soup)
       /\ county_matches "North Fresno" cols = true
       /\ (row_is_event cols = true ->
           exists p, row_plant "North Fresno" cols = Some p
                     /\ p ∈ page_plants (Soup (first_table_rows sample_soup))
                                        "North Fresno").
Proof.
  assert ("North Fresno"
          ∈ (get_counties_from_cdfw (CountiesSoup (document_rows sample_soup)) 0
               (mkcounties None None)).1)
    as Hin.
  { replace (get_counties_from_cdfw (CountiesSoup (document_rows sample_soup)) 0
               (mkcounties None None)).1
      with ["Fresno County"; "Madera"; "North Fresno"] by (vm_compute; reflexivity).
    right. right. left. }
  assert (Forall (fun cols => row_is_ascii cols = true) (document_rows sample_soup))
    as Hascii by (repeat constructor).
  split; [reflexivity|]. split; [exact Hascii|]. split; [reflexivity|].
  split; [exact Hin|].
  exact (offered_county_matches_row sample_soup 0 (mkcounties None None)
           "North Fresno" eq_refl Hascii eq_refl Hin).
Defined.

(** The first hypothesis is needed: a county read from a row outside the
    first table is offered, and the scraper finds nothing for it. *)
Example offered_county_outside_first_table :
  (get_counties_from_cdfw (CountiesSoup (document_rows two_table_soup)) 0
     (mkcounties None None)).1
  = ["Fresno County"; "Madera"; "Mono"; "North Fresno"]
  /\ page_plants (Soup (first_table_rows two_table_soup)) "Mono" = [].
Proof. split; vm_compute; reflexivity. Qed.

(** ** Narrowing the query *)

Lemma row_plant_narrow (q q' : string) (cols : row) (p : plant) :
  Str.contains (Str.lower q') (Str.lower q) = true ->
  row_plant q cols = Some p -> row_plant q' cols = Some p.
Proof.
  intros Hsub. unfold row_plant.
  destruct cols as [|c0 [|c1 [|c2 [|c3 rest]]]]; try discriminate.
  destruct (Str.is_empty (clean_water_name c1)); [discriminate|].
  destruct (Str.contains (Str.lower q) _) eqn:Hq; [|discriminate].
  now rewrite (contains_trans _ _ _ Hsub Hq).
Qed.

(** X9. A query that is, case-insensitively, a substring of another one
    yields every event the other one yields, in the same order; the empty
    query yields the events of every query. *)
Theorem narrower_query_more_events (q q' : string) (rows : list row) :
  Str.contains (Str.lower q') (Str.lower q) = true ->
  collect_plants q rows `sublist_of` collect_plants q' rows
  /\ collect_plants q rows `sublist_of` collect_plants "" rows.
Proof.
  assert (forall a b, Str.contains (Str.lower b) (Str.lower a) = true ->
                      collect_plants a rows `sublist_of` collect_plants b rows) as H.
  { intros a b Hsub. unfold collect_plants.
    induction rows as [|cols rows IH]; simpl; [constructor|].
    destruct (row_plant a cols) as [p|] eqn:Ha.
    - rewrite (row_plant_narrow a b cols p Hsub Ha). now constructor.
    - destruct (row_plant b cols); [now constructor | exact IH]. }
  intros Hsub. split; [now apply H|]. apply H.
  rewrite contains_unfold. now destruct (Str.lower q).
Qed.

Lemma narrower_query_more_events_witness :
  Str.contains (Str.lower "fresno") (Str.lower "North Fresno") = true
  /\ collect_plants "North Fresno" (tail sample_table)
       `sublist_of` collect_plants "fresno" (tail sample_table)
  /\ collect_plants "North Fresno" (tail sample_table)
       `sublist_of` collect_plants "" (tail sample_table).
Proof.
  split; [reflexivity|].
  apply (narrower_query_more_events "North Fresno" "fresno" (tail sample_table)).
  reflexivity.
Defined.

(** ** What an event of the mapping is *)

Lemma lstrip_shape (s : string) :
  Str.lstrip s = "" \/
  exists c r, Str.lstrip s = String c r /\ Str.is_space c = false.
Proof.
  induction s as [|c s IH]; [now left|]. simpl.
  destruct (Str.is_space c) eqn:E; [exact IH|]. right. now exists c, s.
Qed.

Lemma rstrip_idem (s : string) : Str.rstrip (Str.rstrip s) = Str.rstrip s.
Proof.
  induction s as [|c s IH]; [reflexivity|]. simpl.
  destruct (Str.is_space c && Str.is_empty (Str.rstrip s)) eqn:E; [reflexivity|].
  simpl. now rewrite IH, E.
Qed.

(** A stripped text has no white space left at its ends: stripping it
    again changes nothing. *)
Lemma strip_idem (s : string) : Str.strip (Str.strip s) = Str.strip s.
Proof.
  unfold Str.strip. destruct (lstrip_shape s) as [->|(c & r & -> & Hc)]; [reflexivity|].
  simpl. rewrite Hc. simpl. rewrite Hc. simpl. now rewrite rstrip_idem, Hc.
Qed.

Lemma row_plant_well_formed (county_input : string) (cols : row) (p : plant) :
  row_plant county_input cols = Some p ->
  water p <> "" /\ Str.strip (water p) = water p
  /\ Strptime.strptime (Str.strip (start_str (week p))) = Some (pdate p)
  /\ valid_date (year (pdate p)) (month (pdate p)) (day (pdate p)) = true.
Proof.
  unfold row_plant. destruct cols as [|c0 [|c1 [|c2 [|c3 rest]]]]; try discriminate.
  destruct (Str.is_empty (clean_water_name c1)) eqn:Hw; [discriminate|].
  destruct (negb _); [discriminate|].
  destruct (Strptime.strptime _) as [d|] eqn:Hd; [|discriminate].
  intros [= <-]. simpl. split; [|split; [|split]].
  - intros Heq. now rewrite Heq in Hw.
  - unfold clean_water_name. apply strip_idem.
  - exact Hd.
  - now destruct (strptime_fields _ _ Hd) as (mt & dt & yt & _ & _ & _ & _ & _ & Hv).
Qed.

(** X10. In the mapping that [get_fish_plants_for_county] returns, every
    key is a water name that is not empty and has no white space at its
    ends, and every recent or upcoming event under a key carries that water
    name and a calendar date (year 1 to 9999, month 1 to 12, a day of that
    month) which is the parsed start token of the event's own week text. *)
Theorem result_events_well_formed
    (page : fetched) (today : date) (county_input : string)
    (found : list (string * water_result)) :
  (get_fish_plants_for_county page today county_input).1 = Some found ->
  forall (w : string) (r : water_result),
    (w, r) ∈ found ->
    w <> "" /\ Str.strip w = w
    /\ forall e, recent r = Some e \/ upcoming r = Some e ->
                 water e = w
                 /\ Strptime.strptime (Str.strip (start_str (week e))) = Some (pdate e)
                 /\ valid_date (year (pdate e)) (month (pdate e)) (day (pdate e)) = true.
Proof.
  intros Hres w r Hin. apply get_fish_plants_results in Hres as [-> _].
  assert (forall e, e ∈ page_plants page county_input ->
                    water e <> "" /\ Str.strip (water e) = water e
                    /\ Strptime.strptime (Str.strip (start_str (week e))) = Some (pdate e)
                    /\ valid_date (year (pdate e)) (month (pdate e)) (day (pdate e)) = true)
    as Hwf.
  { intros e He. destruct page as [msg|[trs|]]; simpl in He; try (inversion He; fail).
    unfold collect_plants in He. apply list_elem_of_omap in He as (cols & _ & Hrow).
    exact (row_plant_well_formed _ _ _ Hrow). }
  pose proof Hin as Hkey. apply build_results_elem in Hkey as [Hne _].
  destruct (plants_of w (page_plants page county_input)) as [|e0 l] eqn:E; [congruence|].
  assert (e0 ∈ page_plants page county_input /\ water e0 = w) as [He0 <-].
  { apply plants_of_elem. rewrite E. left. }
  destruct (Hwf e0 He0) as (Hn & Hs & _). split; [exact Hn|]. split; [exact Hs|].
  intros e Hre. destruct (result_event_survives _ _ _ _ _ Hin Hre) as [He Hw].
  split; [exact Hw|]. now destruct (Hwf e He) as (_ & _ & Hd & Hv).
Qed.

Lemma result_events_well_formed_witness :
  (get_fish_plants_for_county (Soup (Some shaver_table)) sample_today "fresno").1
  = Some [("Shaver Lake", mkresult (Some shaver_recent) (Some shaver_upcoming))]
  /\ forall (w : string) (r : water_result),
       (w, r) ∈ [("Shaver Lake", mkresult (Some shaver_recent) (Some shaver_upcoming))] ->
       w <> "" /\ Str.strip w = w
       /\ forall e, recent r = Some e \/ upcoming r = Some e ->
                    water e = w
                    /\ Strptime.strptime (Str.strip (start_str (week e))) = Some (pdate e)
                    /\ valid_date (year (pdate e)) (month (pdate e)) (day (pdate e)) = true.
Proof.
  split; [reflexivity|].
  apply (result_events_well_formed (Soup (Some shaver_table)) sample_today "fresno"
           [("Shaver Lake", mkresult (Some shaver_recent) (Some shaver_upcoming))]).
  reflexivity.
Defined.

(** ** Events of the same date *)

Lemma date_eqb_eq (a b : date) : date_eqb a b = true <-> a = b.
Proof.
  unfold date_eqb. rewrite !andb_true_iff, !Z.eqb_eq.
  destruct a, b; simpl. split; [intros [[-> ->] ->]; reflexivity | intros [= -> -> ->]; auto].
Qed.

Lemma date_le_refl (a : date) : date_le a a = true.
Proof. destruct (date_le_total a a); assumption. Qed.

(** The sort is stable: the events of a date keep the order of the page. *)
Lemma dated_insert (d : date) (p : plant) (l : list plant) :
  dated d (insert_by_date p l) = dated d (p :: l).
Proof.
  induction l as [|q l IH]; [reflexivity|]. simpl.
  destruct (date_le (pdate p) (pdate q)) eqn:E; [reflexivity|].
  simpl in *. rewrite IH.
  destruct (date_eqb (pdate p) d) eqn:Hp; [|reflexivity].
  destruct (date_eqb (pdate q) d) eqn:Hq; [|reflexivity].
  apply date_eqb_eq in Hp, Hq. rewrite Hp, Hq, date_le_refl in E. discriminate.
Qed.

Lemma dated_sort (d : date) (l : list plant) : dated d (sort_by_date l) = dated d l.
Proof.
  induction l as [|p l IH]; [reflexivity|]. simpl sort_by_date.
  rewrite dated_insert. simpl. now rewrite IH.
Qed.

Lemma dated_none (d : date) (l : list plant) :
  Forall (fun x => pdate x <> d) l -> dated d l = [].
Proof.
  induction 1 as [|x l Hx _ IH]; [reflexivity|]. simpl.
  destruct (date_eqb (pdate x) d) eqn:E; [|exact IH].
  apply date_eqb_eq in E. contradiction.
Qed.

Lemma summarize_tie_break (today : date) (es : list plant) :
  (forall e, recent (summarize today es) = Some e ->
             last (dated (pdate e) es) = Some e)
  /\ (forall e, upcoming (summarize today es) = Some e ->
                head (dated (pdate e) es) = Some e).
Proof.
  unfold summarize. simpl. split; intros e He.
  - apply next_where_Some in He as (Hd & before & after & Hrev & Hb).
    assert (sort_by_date es = rev after ++ e :: rev before) as Hs.
    { rewrite <- (rev_involutive (sort_by_date es)), Hrev, rev_app_distr. simpl.
      now rewrite <- app_assoc. }
    rewrite <- (dated_sort (pdate e) es), Hs. unfold dated at 1.
    rewrite List.filter_app. simpl. rewrite (proj2 (date_eqb_eq _ _) eq_refl).
    fold (dated (pdate e) (rev before)). rewrite dated_none; [apply last_snoc|].
    rewrite Forall_forall in Hb |- *. intros x Hx Heq.
    assert (x ∈ before) as Hx'
      by (apply list_elem_of_In, in_rev, list_elem_of_In; exact Hx).
    specialize (Hb x Hx'). simpl in Hb. congruence.
  - apply next_where_Some in He as (Hd & before & after & Hs & Hb).
    rewrite <- (dated_sort (pdate e) es), Hs. unfold dated at 1.
    rewrite List.filter_app. fold (dated (pdate e) before). rewrite dated_none.
    + simpl. now rewrite (proj2 (date_eqb_eq _ _) eq_refl).
    + rewrite Forall_forall in Hb |- *. intros x Hx Heq.
      specialize (Hb x Hx). simpl in Hb. congruence.
Qed.

(** X11. When several events of a water body share the date that is chosen,
    [recent] is the one that comes last in the page among them, and
    [upcoming] the one that comes first. *)
Theorem same_date_tie_break
    (page : fetched) (today : date) (county_input : string)
    (found : list (string * water_result)) :
  (get_fish_plants_for_county page today county_input).1 = Some found ->
  forall (w : string) (r : water_result),
    (w, r) ∈ found ->
    let events := plants_of w (page_plants page county_input) in
    (forall e, recent r = Some e -> last (dated (pdate e) events) = Some e)
    /\ (forall e, upcoming r = Some e -> head (dated (pdate e) events) = Some e).
Proof.
  intros Hres w r Hin. apply get_fish_plants_results in Hres as [-> _].
  apply build_results_elem in Hin as [_ ->]. apply summarize_tie_break.
Qed.

(** Two plants on June 1 and two on June 22, seen on June 10: the second of
    June 1 is the recent one, the first of June 22 the upcoming one. *)
Lemma same_date_tie_break_witness :
  (get_fish_plants_for_county (Soup (Some tie_table)) sample_today "fresno").1
  = Some [("Shaver Lake", tie_result)]
  /\ forall (w : string) (r : water_result),
       (w, r) ∈ [("Shaver Lake", tie_result)] ->
       let events := plants_of w (page_plants (Soup (Some tie_table)) "fresno") in
       (forall e, recent r = Some e -> last (dated (pdate e) events) = Some e)
       /\ (forall e, upcoming r = Some e -> head (dated (pdate e) events) = Some e).
Proof.
  split; [reflexivity|].
  apply (same_date_tie_break (Soup (Some tie_table)) sample_today "fresno"
           [("Shaver Lake", tie_result)]).
  reflexivity.
Defined.

(** ** Decoding the water name *)

Lemma unquote_encoded (c : ascii) (t : string) :
  Url.unquote (String "%" (String (hex_char (Str.code c / 16))
                             (String (hex_char (Str.code c mod 16)) t)))
  = String c (Url.unquote t).
Proof. each_char c; reflexivity. Qed.

Lemma unquote_kept (c : ascii) (t : string) :
  Ascii.eqb c "%" = false -> Url.unquote (String c t) = String c (Url.unquote t).
Proof. intros H. simpl. now rewrite H. Qed.

Lemma unquote_percent_encode (keep : ascii -> bool) (s : string) :
  keep "%"%char = false -> Url.unquote (percent_encode keep s) = s.
Proof.
  intros Hkeep. induction s as [|c s IH]; [reflexivity|]. simpl.
  destruct (keep c) eqn:Hc.
  - rewrite unquote_kept, IH; [reflexivity|].
    destruct (Ascii.eqb_spec c "%") as [->|]; [congruence | reflexivity].
  - now rewrite unquote_encoded, IH.
Qed.

(** X12. A water name that reaches the map view percent-encoded, whatever
    characters the encoder left as they are as long as it encoded the
    percent sign, is decoded to the name itself: that name is shown on the
    page and it is the one the geocoder is asked for. *)
Theorem map_view_decodes_water
    (keep : ascii -> bool) (service : list string -> string -> geo_response)
    (county water : string) (st : geo_state) :
  keep "%"%char = false ->
  Url.unquote (percent_encode keep water) = water
  /\ map_water (map_view service county (percent_encode keep water) st).1 = water
  /\ (map_view service county (percent_encode keep water) st).2
     = (geocode_water service water county st).2.
Proof.
  intros Hkeep. pose proof (unquote_percent_encode keep water Hkeep) as Hdec.
  split; [exact Hdec|]. unfold map_view. rewrite Hdec.
  destruct (geocode_water service water county st) as [[c|] st1]; [now split|].
  now destruct (get_county_seat_coords county).
Qed.

Lemma map_view_decodes_water_witness :
  is_alnum "%"%char = false
  /\ percent_encode is_alnum "Lake 100%" = "Lake%20100%25"
  /\ Url.unquote (percent_encode is_alnum "Lake 100%") = "Lake 100%"
  /\ map_water (map_view failing_service "Inyo"
                  (percent_encode is_alnum "Lake 100%") empty_geo).1 = "Lake 100%"
  /\ (map_view failing_service "Inyo" (percent_encode is_alnum "Lake 100%") empty_geo).2
     = (geocode_water failing_service "Lake 100%" "Inyo" empty_geo).2.
Proof.
  split; [reflexivity|]. split; [reflexivity|].
  apply (map_view_decodes_water is_alnum failing_service "Inyo" "Lake 100%" empty_geo).
  reflexivity.
Defined.

Lemma unquote_no_percent (s : string) :
  Str.contains "%" s = false -> Url.unquote s = s.
Proof.
  induction s as [|c s IH]; [reflexivity|]. rewrite contains_unfold.
  intros H. apply orb_false_elim in H as [Hp H].
  rewrite unquote_kept, IH; [reflexivity | exact H |].
  destruct (Ascii.eqb_spec c "%") as [->|]; [|reflexivity].
  pose proof (prefix_app "%" s : String.prefix "%" (String "%" s) = true).
  congruence.
Qed.

Lemma unquote_length_upto (n : nat) (s : string) :
  (String.length s <= n)%nat ->
  (String.length (Url.unquote s) <= String.length s)%nat.
Proof.
  revert s. induction n as [|n IH]; intros s Hn.
  - destruct s; [simpl; lia | simpl in Hn; lia].
  - destruct s as [|c s]; [simpl; lia|]. simpl in Hn.
    assert (String.length (Url.unquote s) <= String.length s)%nat as Hs
      by (apply IH; lia).
    simpl. destruct (Ascii.eqb c "%"); [|simpl; lia].
    destruct s as [|h [|l r]]; try (simpl in *; lia).
    destruct (Url.hex_digit h), (Url.hex_digit l); try (simpl in *; lia).
    assert (String.length (Url.unquote r) <= String.length r)%nat
      by (apply IH; simpl in Hn; lia).
    simpl. lia.
Qed.

Lemma percent_absent_head (c : ascii) (s : string) :
  Str.contains "%" (String c s) = false ->
  Ascii.eqb c "%" = false /\ Str.contains "%" s = false.
Proof.
  rewrite contains_unfold. intros H. apply orb_false_elim in H as [Hp H].
  split; [|exact H].
  destruct (Ascii.eqb_spec c "%") as [->|]; [|reflexivity].
  pose proof (prefix_app "%" s : String.prefix "%" (String "%" s) = true).
  congruence.
Qed.

(** Decoding passes over a text without percent sign. *)
Lemma unquote_app_plain (a r : string) :
  Str.contains "%" a = false -> Url.unquote (a +:+ r) = a +:+ Url.unquote r.
Proof.
  induction a as [|c a IH]; intros H; [reflexivity|].
  apply percent_absent_head in H as [Hc H].
  change ((String c a) +:+ r) with (String c (a +:+ r)).
  rewrite (unquote_kept _ _ Hc), (IH H). reflexivity.
Qed.

(** A percent sign with two hexadecimal digits becomes one character. *)
Lemma unquote_escape (h l : ascii) (x y : N) (r : string) :
  Url.hex_digit h = Some x -> Url.hex_digit l = Some y ->
  Url.unquote (String "%" (String h (String l r)))
  = String (ascii_of_N (16 * x + y)) (Url.unquote r).
Proof. intros Hh Hl. simpl. now rewrite Hh, Hl. Qed.

Lemma unquote_length (s : string) :
  (String.length (Url.unquote s) <= String.length s)%nat.
Proof. now apply (unquote_length_upto (String.length s)). Qed.

(** The map view shows and geocodes the decoded name. *)
Lemma map_view_unquote
    (service : list string -> string -> geo_response)
    (county water : string) (st : geo_state) :
  map_water (map_view service county water st).1 = Url.unquote water
  /\ (map_view service county water st).2
     = (geocode_water service (Url.unquote water) county st).2.
Proof.
  unfold map_view.
  destruct (geocode_water service (Url.unquote water) county st) as [[c|] st1];
    [now split|].
  now destruct (get_county_seat_coords county).
Qed.

(** X13. The map view shows the decoded water name and geocodes that name,
    whatever the name.  A text without percent sign is decoded to itself,
    so such a water name reaches the geocoder and the page as it came, and
    decoding never makes a text longer.  But a percent sign followed by two
    hexadecimal digits that stand for a character of the ASCII range is
    replaced by this character wherever it first occurs in a name: the
    decoded name is two characters shorter at least, differs from the name
    that was requested, and it is the decoded name that is shown and for
    which the geocoder is asked; so for "Lake %41" the query is that of
    "Lake A". *)
Theorem unquote_plain_text :
  (forall s : string, Str.contains "%" s = false -> Url.unquote s = s)
  /\ (forall s : string,
        (String.length (Url.unquote s) <= String.length s)%nat)
  /\ (forall (service : list string -> string -> geo_response)
             (county water : string) (st : geo_state),
        map_water (map_view service county water st).1 = Url.unquote water
        /\ (map_view service county water st).2
           = (geocode_water service (Url.unquote water) county st).2
        /\ (Str.contains "%" water = false ->
            map_water (map_view service county water st).1 = water
            /\ (map_view service county water st).2
               = (geocode_water service water county st).2))
  /\ (forall (a b : string) (h l : ascii) (x y : N),
        Str.contains "%" a = false ->
        Url.hex_digit h = Some x -> Url.hex_digit l = Some y -> (x < 8)%N ->
        let water := a +:+ String "%" (String h (String l b)) in
        let shown := a +:+ String (ascii_of_N (16 * x + y)) (Url.unquote b) in
        Url.unquote water = shown
        /\ shown <> water
        /\ (String.length shown + 2 <= String.length water)%nat
        /\ forall (service : list string -> string -> geo_response)
                  (county : string) (st : geo_state),
             map_water (map_view service county water st).1 = shown
             /\ (map_view service county water st).2
                = (geocode_water service shown county st).2
             /\ (GEOCODE_CACHE st !! cache_key shown county = None ->
                 queries (map_view service county water st).2
                 = queries st ++ [geo_query shown county]))
  /\ (forall (service : list string -> string -> geo_response) (st : geo_state),
        map_water (map_view service "Inyo" "Lake %41" st).1 = "Lake A"
        /\ (GEOCODE_CACHE st !! "lake a|inyo" = None ->
            queries (map_view service "Inyo" "Lake %41" st).2
            = queries st ++ ["Lake A, Inyo County, California"])).
Proof.
  split; [exact unquote_no_percent|].
  split; [exact unquote_length|].
  split; [|split].
  - intros service county water st.
    destruct (map_view_unquote service county water st) as [Hw Hs].
    split; [exact Hw|]. split; [exact Hs|].
    intros Hplain. rewrite Hw, Hs. now rewrite (unquote_no_percent _ Hplain).
  - intros a b h l x y Ha Hh Hl _ water shown.
    assert (Url.unquote water = shown) as Hdec.
    { unfold water, shown. rewrite (unquote_app_plain _ _ Ha).
      now rewrite (unquote_escape h l x y b Hh Hl). }
    assert (String.length shown + 2 <= String.length water)%nat as Hlen.
    { unfold water, shown. rewrite !length_append. simpl.
      pose proof (unquote_length b). lia. }
    split; [exact Hdec|]. split; [|split; [exact Hlen|]].
    + intros Heq. rewrite Heq in Hlen. lia.
    + intros service county st.
      destruct (map_view_unquote service county water st) as [Hw Hs].
      rewrite Hw, Hs, Hdec. split; [reflexivity|]. split; [reflexivity|].
      intros Hmiss. rewrite geocode_water_queries. now rewrite Hmiss.
  - intros service st.
    destruct (map_view_unquote service "Inyo" "Lake %41" st) as [Hw Hs].
    rewrite Hw, Hs. change (Url.unquote "Lake %41") with "Lake A".
    split; [reflexivity|].
    intros Hmiss. rewrite geocode_water_queries.
    change (cache_key "Lake A" "Inyo") with "lake a|inyo". now rewrite Hmiss.
Qed.

(** ** The start date of a date range *)

Lemma prefix_cons (a b : ascii) (p s : string) :
  String.prefix (String a p) (String b s)
  = if ascii_dec a b then String.prefix p s else false.
Proof. reflexivity. Qed.

Lemma prefix_empty (s : string) : String.prefix "" s = true.
Proof. now destruct s. Qed.

(** A text in which the character [c0] does not occur. *)
Lemma contains_char_absent (c0 : ascii) (t : string) :
  Forall (fun c => c <> c0) (list_ascii_of_string t) ->
  Str.contains (String c0 "") t = false.
Proof.
  induction t as [|x t IH]; intros H; [reflexivity|].
  simpl in H. apply Forall_cons in H as [Hx H].
  rewrite contains_unfold, prefix_cons, (IH H).
  destruct (ascii_dec c0 x); [congruence | reflexivity].
Qed.

Lemma char_absent_prefix (c0 x : ascii) (sep t r : string) :
  Str.contains (String c0 "") (String x t) = false ->
  String.prefix (String c0 sep) (String x r) = false.
Proof.
  rewrite contains_unfold, prefix_cons. intros H. apply orb_false_elim in H as [H _].
  rewrite prefix_cons. destruct (ascii_dec c0 x); [|reflexivity].
  now rewrite prefix_empty in H.
Qed.

Lemma char_absent_tail (c0 x : ascii) (t : string) :
  Str.contains (String c0 "") (String x t) = false ->
  Str.contains (String c0 "") t = false.
Proof. rewrite contains_unfold. intros H. now apply orb_false_elim in H as [_ H]. Qed.

(** A separator is found right behind a text that has not its first
    character. *)
Lemma split_head_clean (c0 : ascii) (sep t rest : string) :
  Str.contains (String c0 "") t = false ->
  Str.split_head (String c0 sep) (t +:+ String c0 sep +:+ rest) = t.
Proof.
  induction t as [|x t IH]; intros H.
  - pose proof (prefix_app (String c0 sep) rest) as Hp. simpl in Hp |- *.
    now rewrite split_head_unfold, Hp.
  - change ((String x t) +:+ String c0 sep +:+ rest)
      with (String x (t +:+ String c0 sep +:+ rest)).
    rewrite split_head_unfold, (char_absent_prefix _ _ _ _ _ H).
    f_equal. apply IH. exact (char_absent_tail _ _ _ H).
Qed.

Lemma contains_skip (c0 : ascii) (sep t u : string) :
  Str.contains (String c0 "") t = false ->
  Str.contains (String c0 sep) (t +:+ u) = Str.contains (String c0 sep) u.
Proof.
  induction t as [|x t IH]; intros H; [reflexivity|].
  change ((String x t) +:+ u) with (String x (t +:+ u)).
  rewrite contains_unfold, (char_absent_prefix _ _ _ _ _ H).
  apply IH. exact (char_absent_tail _ _ _ H).
Qed.

Lemma rstrip_no_space (u : string) :
  Forall (fun x => Str.is_space x = false) (list_ascii_of_string u) ->
  Str.rstrip u = u.
Proof.
  induction u as [|x u IH]; [reflexivity|]. simpl. intros Hu.
  apply Forall_cons in Hu as [Hx Hu]. now rewrite Hx, (IH Hu).
Qed.

Lemma strip_no_space (u : string) :
  Forall (fun x => Str.is_space x = false) (list_ascii_of_string u) ->
  Str.strip u = u.
Proof.
  intros Hu. unfold Str.strip. destruct u as [|c t]; [reflexivity|].
  pose proof Hu as Hu'. simpl in Hu'. apply Forall_cons in Hu' as [Hc _].
  simpl Str.lstrip. rewrite Hc. now apply rstrip_no_space.
Qed.

Lemma digit_char_plain (k : Z) :
  0 <= k <= 9 ->
  Str.is_space (digit_char k) = false
  /\ digit_char k <> " "%char /\ digit_char k <> "-"%char.
Proof.
  intros H.
  assert (k = 0 \/ k = 1 \/ k = 2 \/ k = 3 \/ k = 4 \/ k = 5 \/ k = 6 \/ k = 7
          \/ k = 8 \/ k = 9) as Hk by lia.
  repeat (destruct Hk as [->|Hk]; [repeat split; discriminate|]).
  subst. repeat split; discriminate.
Qed.

(** A calendar date written mm/dd/yyyy has neither white space nor a dash. *)
Lemma mdY_text_plain (d : date) :
  valid_date (year d) (month d) (day d) = true ->
  Forall (fun c => Str.is_space c = false /\ c <> " "%char /\ c <> "-"%char)
    (list_ascii_of_string (mdY_text d)).
Proof.
  intros Hv. unfold valid_date in Hv.
  rewrite !andb_true_iff, !Z.leb_le in Hv. destruct Hv as [[[[[? ?] ?] ?] ?] Hd].
  assert (day d <= 31)
    by (unfold days_in_month in Hd; repeat destruct (_ : bool) in Hd; lia).
  unfold mdY_text, two_digits, four_digits. simpl.
  repeat (constructor;
          [first [ apply digit_char_plain; Z.div_mod_to_equations; lia
                 | repeat split; discriminate ]|]).
  constructor.
Qed.

(** The separator is looked for behind a text that has not its first
    character. *)
Lemma split_head_skip (c0 : ascii) (sep t u : string) :
  Str.contains (String c0 "") t = false ->
  Str.split_head (String c0 sep) (t +:+ u) = t +:+ Str.split_head (String c0 sep) u.
Proof.
  induction t as [|x t IH]; intros H; [reflexivity|].
  change ((String x t) +:+ u) with (String x (t +:+ u)).
  rewrite split_head_unfold, (char_absent_prefix _ _ _ _ _ H).
  change ((String x t) +:+ Str.split_head (String c0 sep) u)
    with (String x (t +:+ Str.split_head (String c0 sep) u)).
  f_equal. apply IH. exact (char_absent_tail _ _ _ H).
Qed.

(** Stripping stops at a character that is not white space. *)
Lemma rstrip_app_nonspace (c : ascii) (t u : string) :
  Str.is_space c = false ->
  Str.rstrip (t +:+ String c u) = t +:+ String c (Str.rstrip u).
Proof.
  intros Hc. induction t as [|x t IH].
  - change ("" +:+ String c u) with (String c u).
    change ("" +:+ String c (Str.rstrip u)) with (String c (Str.rstrip u)).
    simpl. now rewrite Hc.
  - change ((String x t) +:+ String c u) with (String x (t +:+ String c u)).
    change ((String x t) +:+ String c (Str.rstrip u))
      with (String x (t +:+ String c (Str.rstrip u))).
    simpl. rewrite IH.
    assert (Str.is_empty (t +:+ String c (Str.rstrip u)) = false) as ->
      by now destruct t.
    now rewrite andb_false_r.
Qed.

Lemma lstrip_nonspace_head (c : ascii) (r : string) :
  Str.is_space c = false -> Str.lstrip (String c r) = String c r.
Proof. intros Hc. simpl. now rewrite Hc. Qed.

Lemma match_Y_four_rest (y : Z) (r : string) :
  0 <= y <= 9999 -> Strptime.match_Y (four_digits y +:+ r) = [(y, r)].
Proof.
  intros H. unfold four_digits.
  change (Strptime.match_Y
            (String (digit_char (y / 1000))
               (String (digit_char (y / 100 mod 10))
                  (String (digit_char (y / 10 mod 10))
                     (String (digit_char (y mod 10)) r))))
          = [(y, r)]).
  unfold Strptime.match_Y.
  rewrite !digit_digit_char by (Z.div_mod_to_equations; lia).
  do 2 f_equal. Z.div_mod_to_equations; lia.
Qed.

(** Text behind a date is not converted: [strptime] raises. *)
Lemma strptime_trailing (d : date) (c : ascii) (w : string) :
  valid_date (year d) (month d) (day d) = true ->
  Strptime.strptime (mdY_text d +:+ String c w) = None.
Proof.
  intros Hv. pose proof Hv as Hv'. unfold valid_date in Hv'.
  rewrite !andb_true_iff, !Z.leb_le in Hv'. destruct Hv' as [[[[[? ?] ?] ?] ?] Hd].
  assert (day d <= 31)
    by (unfold days_in_month in Hd; repeat destruct (_ : bool) in Hd; lia).
  unfold Strptime.strptime, Strptime.matches.
  change (mdY_text d +:+ String c w)
    with (two_digits (month d) +:+ String "/"
            (two_digits (day d) +:+ String "/"
               (four_digits (year d) +:+ String c w))).
  rewrite bind_match_m by lia. rewrite bind_match_d by lia.
  rewrite match_Y_four_rest by lia. reflexivity.
Qed.

(** X15. When the week text of a row is a calendar date written mm/dd/yyyy,
    alone, or followed by " - " and anything, or followed by "-" and a text
    without " - ", the start date that is parsed is that date.  When the
    date is followed by "-" and a text that does contain " - ", the text
    is cut at that " - " instead: the token is the date, the "-" and what
    stands before the " - ", it does not parse, and a row with this week
    text yields no event, whatever its other cells and the query. *)
Theorem week_range_start_date (d : date) (rest : string) :
  valid_date (year d) (month d) (day d) = true ->
  Strptime.strptime (Str.strip (start_str (mdY_text d))) = Some d
  /\ Strptime.strptime (Str.strip (start_str (mdY_text d +:+ " - " +:+ rest))) = Some d
  /\ (Str.contains " - " rest = false ->
      Strptime.strptime (Str.strip (start_str (mdY_text d +:+ "-" +:+ rest))) = Some d)
  /\ (Str.contains " - " rest = true ->
      start_str (mdY_text d +:+ "-" +:+ rest)
      = mdY_text d +:+ "-" +:+ Str.split_head " - " rest
      /\ Strptime.strptime (Str.strip (start_str (mdY_text d +:+ "-" +:+ rest))) = None
      /\ forall (county_input : string) (c0 c1 c2 c3 : cell) (more : list cell),
           get_text_strip c0 = mdY_text d +:+ "-" +:+ rest ->
           row_plant county_input (c0 :: c1 :: c2 :: c3 :: more) = None).
Proof.
  intros Hv. pose proof (mdY_text_plain d Hv) as Hplain.
  assert (Str.contains " " (mdY_text d) = false) as Hsp.
  { apply contains_char_absent. eapply Forall_impl; [exact Hplain|]. now intros c (_ & H & _). }
  assert (Str.contains "-" (mdY_text d) = false) as Hda.
  { apply contains_char_absent. eapply Forall_impl; [exact Hplain|]. now intros c (_ & _ & H). }
  assert (Str.strip (mdY_text d) = mdY_text d) as Hstrip.
  { apply strip_no_space. eapply Forall_impl; [exact Hplain|]. now intros c (H & _). }
  assert (Str.contains " - " (mdY_text d) = false) as Hno.
  { rewrite <- (append_empty_r (mdY_text d)).
    now rewrite (contains_skip " " "- " (mdY_text d) "" Hsp). }
  split; [|split; [|split]].
  - unfold start_str. rewrite Hno, (split_head_absent _ _ Hda), Hstrip.
    now apply strptime_mdY_text.
  - unfold start_str.
    assert (Str.contains " - " (mdY_text d +:+ " - " +:+ rest) = true) as ->
      by (apply contains_iff; now exists (mdY_text d), rest).
    rewrite (split_head_clean " " "- " (mdY_text d) rest Hsp), Hstrip.
    now apply strptime_mdY_text.
  - intros Hrest. unfold start_str.
    rewrite (contains_skip " " "- " (mdY_text d) ("-" +:+ rest) Hsp).
    assert (Str.contains " - " ("-" +:+ rest) = false) as ->.
    { change ("-" +:+ rest) with (String "-" rest).
      rewrite contains_unfold, Hrest. reflexivity. }
    rewrite (split_head_clean "-" "" (mdY_text d) rest Hda), Hstrip.
    now apply strptime_mdY_text.
  - intros Hrest.
    assert (start_str (mdY_text d +:+ "-" +:+ rest)
            = mdY_text d +:+ "-" +:+ Str.split_head " - " rest) as Htoken.
    { unfold start_str.
      rewrite (contains_skip " " "- " (mdY_text d) ("-" +:+ rest) Hsp).
      assert (Str.contains " - " ("-" +:+ rest) = true) as ->.
      { change ("-" +:+ rest) with (String "-" rest).
        rewrite contains_unfold, Hrest. apply orb_true_r. }
      rewrite (split_head_skip " " "- " (mdY_text d) ("-" +:+ rest) Hsp).
      rewrite (split_head_skip " " "- " "-" rest eq_refl). reflexivity. }
    assert (Strptime.strptime (Str.strip (start_str (mdY_text d +:+ "-" +:+ rest)))
            = None) as Hfail.
    { rewrite Htoken. unfold Str.strip.
      assert (Str.lstrip (mdY_text d +:+ "-" +:+ Str.split_head " - " rest)
              = mdY_text d +:+ "-" +:+ Str.split_head " - " rest) as ->.
      { apply lstrip_nonspace_head.
        apply digit_char_plain. unfold valid_date in Hv.
        rewrite !andb_true_iff, !Z.leb_le in Hv. Z.div_mod_to_equations; lia. }
      change ("-" +:+ Str.split_head " - " rest)
        with (String "-" (Str.split_head " - " rest)).
      rewrite (rstrip_app_nonspace "-" (mdY_text d) _ eq_refl).
      now apply strptime_trailing. }
    split; [exact Htoken|]. split; [exact Hfail|].
    intros q c0 c1 c2 c3 more Hweek.
    apply (row_plant_date q c0 c1 c2 c3 more). now rewrite Hweek.
Qed.

(** The first of June 2025 with the ranges "06/01/2025-06/07/2025" and
    "06/01/2025-06/07/2025 - late", the latter in a row of Shaver Lake. *)
Lemma week_range_start_date_witness :
  valid_date 2025 6 1 = true
  /\ Str.contains " - " "06/07/2025" = false
  /\ Str.contains " - " "06/07/2025 - late" = true
  /\ mdY_text (mkdate 2025 6 1) +:+ "-" +:+ "06/07/2025 - late"
     = "06/01/2025-06/07/2025 - late"
  /\ Strptime.strptime
       (Str.strip (start_str (mdY_text (mkdate 2025 6 1) +:+ "-" +:+ "06/07/2025")))
     = Some (mkdate 2025 6 1)
  /\ start_str (mdY_text (mkdate 2025 6 1) +:+ "-" +:+ "06/07/2025 - late")
     = mdY_text (mkdate 2025 6 1) +:+ "-" +:+ Str.split_head " - " "06/07/2025 - late"
  /\ row_plant "Fresno"
       (text_row "06/01/2025-06/07/2025 - late" "Shaver Lake" "Fresno" "Rainbow Trout")
     = None.
Proof.
  split; [reflexivity|]. split; [reflexivity|]. split; [reflexivity|].
  split; [reflexivity|].
  split; [|split].
  - apply (week_range_start_date (mkdate 2025 6 1) "06/07/2025"); reflexivity.
  - apply (week_range_start_date (mkdate 2025 6 1) "06/07/2025 - late"); reflexivity.
  - apply (week_range_start_date (mkdate 2025 6 1) "06/07/2025 - late");
      reflexivity.
Defined.

(** ** The spellings of a date that are parsed *)

Section Spellings.

Import Strptime.

Ltac spelling_case k v r :=
  transitivity ((k v r ++ []) ++ []);
  [vm_compute; reflexivity | now rewrite !app_nil_r].

Ltac spelling_cases H k r :=
  simpl in H;
  repeat (apply elem_of_cons in H as [->|H];
          [match goal with |- _ = k ?v r => spelling_case k v r end|]);
  inversion H.

Lemma bind_match_m_texts {B : Type} (m : Z) (mt r : string)
    (k : Z -> string -> list B) :
  1 <= m <= 12 -> mt ∈ month_texts m ->
  (match_m (mt +:+ String "/" r) ≫= fun '(m', s1) => match_slash s1 ≫= k m')
  = k m r.
Proof.
  intros H Hmt.
  assert (exists n, m = Z.of_nat n /\ (n < 13)%nat) as (n & -> & Hn)
    by (exists (Z.to_nat m); lia).
  unfold month_texts in Hmt.
  do 13 (destruct n as [|n]; [try lia; spelling_cases Hmt k r|]).
  lia.
Qed.

Lemma bind_match_d_texts {B : Type} (d : Z) (dt r : string)
    (k : Z -> string -> list B) :
  1 <= d <= 31 -> dt ∈ day_texts d ->
  (match_d (dt +:+ String "/" r) ≫= fun '(d', s1) => match_slash s1 ≫= k d')
  = k d r.
Proof.
  intros H Hdt.
  assert (exists n, d = Z.of_nat n /\ (n < 32)%nat) as (n & -> & Hn)
    by (exists (Z.to_nat d); lia).
  unfold day_texts in Hdt.
  do 32 (destruct n as [|n]; [try lia; spelling_cases Hdt k r|]).
  lia.
Qed.

End Spellings.

(** X16. A calendar date is parsed as itself from every spelling in which
    the month and the day have two digits or, below ten, one digit (the
    day's may follow a space), and the year has four digits: 06/01/2025,
    6/1/2025 and 6/ 1/2025 all give June 1, 2025. *)
Theorem strptime_spellings (d : date) (mt dt : string) :
  valid_date (year d) (month d) (day d) = true ->
  mt ∈ month_texts (month d) ->
  dt ∈ day_texts (day d) ->
  Strptime.strptime (mt +:+ "/" +:+ dt +:+ "/" +:+ four_digits (year d)) = Some d.
Proof.
  intros Hv Hmt Hdt. pose proof Hv as Hv'. unfold valid_date in Hv'.
  rewrite !andb_true_iff, !Z.leb_le in Hv'. destruct Hv' as [[[[[? ?] ?] ?] ?] Hd].
  assert (day d <= 31)
    by (unfold days_in_month in Hd; repeat destruct (_ : bool) in Hd; lia).
  unfold Strptime.strptime, Strptime.matches.
  change (mt +:+ "/" +:+ dt +:+ "/" +:+ four_digits (year d))
    with (mt +:+ String "/" (dt +:+ String "/" (four_digits (year d)))).
  rewrite (bind_match_m_texts (month d) mt) by (lia || assumption).
  rewrite (bind_match_d_texts (day d) dt) by (lia || assumption).
  rewrite match_Y_four by lia. simpl.
  rewrite Hv. now destruct d.
Qed.

Lemma strptime_spellings_witness :
  valid_date 2025 6 1 = true
  /\ "6" ∈ month_texts 6
  /\ " 1" ∈ day_texts 1
  /\ Strptime.strptime ("6" +:+ "/" +:+ " 1" +:+ "/" +:+ four_digits 2025)
     = Some (mkdate 2025 6 1).
Proof.
  assert ("6" ∈ month_texts 6) as Hm by (right; left).
  assert (" 1" ∈ day_texts 1) as Hd by (right; right; left).
  split; [reflexivity|]. split; [exact Hm|]. split; [exact Hd|].
  exact (strptime_spellings (mkdate 2025 6 1) "6" " 1" eq_refl Hm Hd).
Defined.

(** ** The map of a known county *)

Lemma county_seat_message_not_center (water county : string) :
  county_seat_message water county <> center_message.
Proof. unfold county_seat_message, center_message. simpl. discriminate. Qed.

Lemma COUNTY_SEATS_resolve_lower (k : string) (v : coords) :
  (k, v) ∈ COUNTY_SEATS -> get_county_seat_coords (Str.lower k) = Some v.
Proof.
  revert k v.
  assert (Forall (fun kv => get_county_seat_coords (Str.lower kv.1) = Some kv.2)
            COUNTY_SEATS) as H
    by (repeat (constructor; [reflexivity|]); constructor).
  intros k v Hin. rewrite Forall_forall in H. exact (H (k, v) Hin).
Qed.

(** X17. Every county of the county-seat table is in the fallback list,
    and when the map view is asked for it, by its name, by its name followed
    by " County" or in lower case, it never falls back to the center of
    California: the pin is the geocoder's result or the county seat,
    whatever the geocoder does. *)
Theorem map_view_known_county
    (service : list string -> string -> geo_response)
    (k : string) (v : coords) (county water : string) (st : geo_state) :
  (k, v) ∈ COUNTY_SEATS ->
  county ∈ [k; k +:+ " County"; Str.lower k] ->
  let page := (map_view service county water st).1 in
  k ∈ FALLBACK_COUNTIES
  /\ message page <> Some center_message
  /\ match (geocode_water service (Url.unquote water) county st).1 with
     | Some c => (lat page, lon page) = c /\ message page = None
     | None => (lat page, lon page) = v
     end.
Proof.
  intros Hk Hc page.
  split.
  { rewrite FALLBACK_COUNTIES_seats. apply list_elem_of_fmap. now exists (k, v). }
  assert (get_county_seat_coords county = Some v) as Hseat.
  { destruct (COUNTY_SEATS_resolve k v Hk) as [H1 H2].
    pose proof (COUNTY_SEATS_resolve_lower k v Hk) as H3.
    repeat (apply elem_of_cons in Hc as [->|Hc]; [assumption|]). inversion Hc. }
  unfold page, map_view. rewrite Hseat.
  destruct (geocode_water service (Url.unquote water) county st) as [[[la lo]|] st1];
    cbn [fst snd message lat lon].
  - split; [discriminate | now split].
  - split; [|now destruct v].
    intros H. apply (county_seat_message_not_center (Url.unquote water) county).
    congruence.
Qed.

(** El Dorado, asked for in lower case while the service is down. *)
Lemma map_view_known_county_witness :
  ("El Dorado", (38.7296, -120.7985)%float) ∈ COUNTY_SEATS
  /\ "el dorado" ∈ ["El Dorado"; "El Dorado" +:+ " County"; Str.lower "El Dorado"]
  /\ let page := (map_view failing_service "el dorado" "Lake Tahoe" empty_geo).1 in
     "El Dorado" ∈ FALLBACK_COUNTIES
     /\ message page <> Some center_message
     /\ match (geocode_water failing_service (Url.unquote "Lake Tahoe")
                 "el dorado" empty_geo).1 with
        | Some c => (lat page, lon page) = c /\ message page = None
        | None => (lat page, lon page) = (38.7296, -120.7985)%float
        end.
Proof.
  assert (("El Dorado", (38.7296, -120.7985)%float) ∈ COUNTY_SEATS) as Hk
    by (apply (dict_get_Some _ _ _ COUNTY_SEATS_keys_NoDup); reflexivity).
  assert ("el dorado" ∈ ["El Dorado"; "El Dorado" +:+ " County"; Str.lower "El Dorado"])
    as Hc by (right; right; left).
  split; [exact Hk|]. split; [exact Hc|].
  exact (map_view_known_county failing_service "El Dorado" (38.7296, -120.7985)%float
           "el dorado" "Lake Tahoe" empty_geo Hk Hc).
Defined.
